(** * Verification of the noisysockets telemetry reporter

    A shallow embedding of the Go package [telemetry] (the reporter with its
    bounded task group, and the earlier synchronous reporter) and of
    [internal/util.GenerateID], followed by the properties of the
    specification that were checked against it. *)

From Stdlib Require Import ZArith String Ascii List Bool Lia.
From stdpp Require Import base option list strings gmap.

Import ListNotations.
Local Open Scope Z_scope.

(** ** Results of calls *)

(** A Go call either returns a value or panics. *)
Inductive outcome (A : Type) : Type :=
| Ok (a : A)
| Panic (msg : string).
Arguments Ok {A} a.
Arguments Panic {A} msg.

(** A Go call on a synchronisation object either returns or is still parked
    (on a channel send, on a wait group) when the observed schedule ends. *)
Inductive call (A : Type) : Type :=
| Returns (a : A)
| Blocked.
Arguments Returns {A} a.
Arguments Blocked {A}.

(** ** Errors

    Go errors form chains through [Unwrap]; [context.Canceled] and
    [context.DeadlineExceeded] are sentinels compared by identity. *)
Inductive error : Type :=
| context_Canceled
| context_DeadlineExceeded
| ErrMsg (msg : string)
| ErrWrap (msg : string) (inner : error).

Fixpoint error_eqb (a b : error) : bool :=
  match a, b with
  | context_Canceled, context_Canceled => true
  | context_DeadlineExceeded, context_DeadlineExceeded => true
  | ErrMsg m, ErrMsg m' => String.eqb m m'
  | ErrWrap m e, ErrWrap m' e' => String.eqb m m' && error_eqb e e'
  | _, _ => false
  end.

(** [errors.Is(err, target)]: walk the chain of [err], comparing each link. *)
Fixpoint errors_Is (err target : error) : bool :=
  if error_eqb err target then true
  else match err with
       | ErrWrap _ inner => errors_Is inner target
       | _ => false
       end.

(** [err.Error()]. *)
Fixpoint error_Error (e : error) : string :=
  match e with
  | context_Canceled => "context canceled"
  | context_DeadlineExceeded => "context deadline exceeded"
  | ErrMsg m => m
  | ErrWrap m inner => m +:+ ": " +:+ error_Error inner
  end.

(** ** internal/util: GenerateID *)

(** [crypto/rand.Reader] as seen by one call of [GenerateID]: the [i]-th draw
    either fails with a read error or yields raw entropy. *)
Definition Reader : Type := nat -> option Z.

(** [rand.Int(rand.Reader, max)] for the [i]-th draw: a value in [[0, max)],
    or the reader's error. *)
Definition rand_Int (rd : Reader) (i : nat) (max : Z) : outcome Z :=
  match rd i with
  | Some v => Ok (v mod max)
  | None => Panic "crypto/rand: read failed"
  end.

Definition letters : string :=
  "abcdefghijklmnopqrstuvwxyzABCDEFGHIJKLMNOPQRSTUVWXYZ0123456789".

(** The body of [for i := range id]: iterations [i, i+1, ...], [k] of them,
    each storing one letter into the slice in place. *)
Fixpoint GenerateID_loop (rd : Reader) (k : nat) (i : nat) (id : list ascii)
  : outcome (list ascii) :=
  match k with
  | O => Ok id
  | S k' =>
      match rand_Int rd i (Z.of_nat (String.length letters)) with
      | Panic m => Panic m
      | Ok r =>
          match String.get (Z.to_nat r) letters with
          | None => Panic "index out of range"
          | Some c => GenerateID_loop rd k' (S i) (<[i := c]> id)
          end
      end
  end.

(** [GenerateID(n)]: [make([]byte, n)] panics on a negative length; the slice
    starts zeroed. *)
Definition GenerateID (rd : Reader) (n : Z) : outcome string :=
  if n <? 0 then Panic "makeslice: len out of range"
  else
    match GenerateID_loop rd (Z.to_nat n) 0 (replicate (Z.to_nat n) zero) with
    | Panic m => Panic m
    | Ok id => Ok (string_of_list_ascii id)
    end.

(** Membership in the alphabet, and the three character classes. *)
Definition in_letters (c : ascii) : Prop :=
  In c (list_ascii_of_string letters).

Definition is_alnum (c : ascii) : bool :=
  let n := nat_of_ascii c in
  ((65 <=? n) && (n <=? 90) || (97 <=? n) && (n <=? 122)
   || (48 <=? n) && (n <=? 57))%nat.

(** ** The wire schema (telemetry/v1alpha1) *)

Record StackFrame : Type := {
  file : string;
  function : string;
  line : Z;
  column : Z
}.

Inductive TelemetryEventKind : Type := INFO | WARNING | ERROR.

(** [google.protobuf.Timestamp]. *)
Record Timestamp : Type := {
  seconds : Z;
  nanos : Z
}.

Record TelemetryEvent : Type := {
  SessionId : string;
  Timestamp_ : option Timestamp;
  Kind : TelemetryEventKind;
  Name : string;
  Message : string;
  Values : gmap string string;
  StackTrace : list StackFrame;
  Tags : list string
}.

(** ** What the reporter does to the outside world *)

Inductive level : Type := Debug | Info | Warn.

(** [http.Header]: canonical key to list of values. *)
Abbreviation Header := (gmap string (list string)).

(** [connect.Request[TelemetryEvent]]. *)
Record Request : Type := {
  Msg : TelemetryEvent;
  header : Header
}.

(** [h.Set(key, value)] replaces whatever the key held. The only key set
    here, [Authorization], is already in canonical form. *)
Definition Header_Set (key value : string) (h : Header) : Header :=
  <[key := [value]]> h.

Inductive effect : Type :=
| Getenv (name : string)                    (* os.Getenv *)
| Log (lvl : level) (msg : string)          (* the slog logger *)
| Stdout (text : string)                    (* fmt.Println *)
| Report (timeout : option Z) (req : Request).
                                            (* client.Report; seconds *)

(** ** Constants *)

Definition maxConcurrentReports : Z := 16.
Definition telemetryOptOutEnvVar : string := "NSH_NO_TELEMETRY".

(** ** Construction inputs *)

(** [x509.CertPool], by the subjects it holds. *)
Abbreviation CertPool := (list string).

Record http_Client : Type := {
  Timeout : Z;                       (* seconds; 0 is no timeout *)
  RootCAs : option CertPool          (* None: the host's trust store *)
}.

Record Configuration : Type := {
  BaseURL : string;
  AuthToken : string;
  conf_Tags : list string;
  HTTPClient : option http_Client
}.

(** What the process offers to [NewReporter]: its environment variables, the
    pool obtained from the embedded [roots.pem] ([None] when
    [AppendCertsFromPEM] reports failure) and the entropy source. *)
Record Host : Type := {
  os_Getenv : string -> string;
  rootsPEM_parsed : option CertPool;
  rand_Reader : Reader
}.

(** [v1alpha1connect.TelemetryClient]. *)
Record TelemetryClient : Type := {
  httpClient : http_Client;
  baseURL : string
}.

(** ** The task group (golang.org/x/sync/errgroup)

    The two closures handed to the group are kept as data. The closure of
    [ReportEvent] reads the event through the caller's pointer; it is taken
    here in the state in which [ReportEvent] left it. *)
Inductive task : Type :=
| ReportTask (event : TelemetryEvent)   (* the closure of ReportEvent *)
| CancelTask.                           (* the closure of Close *)

(** Modelled from the spec: the bounded concurrency group is the errgroup
    package, a dependency of the repository. A group keeps a semaphore of
    [limit] tokens (one per task between its start and its end), the first
    non-nil error a task returned, and the cancel function of the context it
    was made with; [ctxDone] is that context, which the reporter also holds
    as [reportsCtx]. *)
Record Group : Type := {
  limit : option nat;
  running : list task;
  err : option error;
  ctxDone : bool
}.

(** [errgroup.WithContext(ctx)]; [parentDone] tells whether [ctx] is already
    cancelled. *)
Definition errgroup_WithContext (parentDone : bool) : Group :=
  {| limit := None; running := []; err := None; ctxDone := parentDone |}.

(** [g.SetLimit(n)]: a negative [n] lifts the limit; changing the limit
    while tasks are active panics. *)
Definition SetLimit (n : Z) (g : Group) : outcome Group :=
  if n <? 0 then
    Ok {| limit := None; running := running g; err := err g;
          ctxDone := ctxDone g |}
  else
    match limit g, running g with
    | Some _, _ :: _ =>
        Panic "errgroup: modify limit while goroutines are still active"
    | _, _ =>
        Ok {| limit := Some (Z.to_nat n); running := running g;
              err := err g; ctxDone := ctxDone g |}
    end.

(** Whether the semaphore has a free token. *)
Definition has_slot (g : Group) : bool :=
  match limit g with
  | None => true
  | Some n => (length (running g) <? n)%nat
  end.

Definition spawn (t : task) (g : Group) : Group :=
  {| limit := limit g; running := running g ++ [t]; err := err g;
     ctxDone := ctxDone g |}.

(** [g.TryGo(f)]: [select] with a [default] branch, so it answers at once. *)
Definition TryGo (t : task) (g : Group) : Group * bool :=
  if has_slot g then (spawn t g, true) else (g, false).

(** [g.Go(f)]: a plain channel send, parked while the semaphore is full. *)
Definition Go (t : task) (g : Group) : call Group :=
  if has_slot g then Returns (spawn t g) else Blocked.

(** The end of the [i]-th running task with result [res]: its token is given
    back, and the first non-nil result is kept and cancels the context. *)
Definition task_done (i : nat) (res : option error) (g : Group) : Group :=
  {| limit := limit g;
     running := delete i (running g);
     err := match err g with Some e => Some e | None => res end;
     ctxDone := match err g, res with
                | None, Some _ => true
                | _, _ => ctxDone g
                end |}.

Definition drained (g : Group) : bool :=
  match running g with [] => true | _ :: _ => false end.

(** [g.Wait()]: parked until no task runs, then cancels the context and
    returns the kept error. *)
Definition Wait (g : Group) : call (Group * option error) :=
  if drained g then
    Returns ({| limit := limit g; running := running g; err := err g;
                ctxDone := true |}, err g)
  else Blocked.

(** ** The reporter *)

(** The logger field is the [Log] effect; [reportsCtx] is [ctxDone] of
    [reports]. *)
Record Reporter : Type := {
  client : TelemetryClient;
  authToken : string;
  sessionID : string;
  tags : list string;
  reports : Group;
  shuttingDown : bool;
  enabled : bool
}.

Definition with_reports (g : Group) (r : Reporter) : Reporter :=
  {| client := client r; authToken := authToken r; sessionID := sessionID r;
     tags := tags r; reports := g; shuttingDown := shuttingDown r;
     enabled := enabled r |}.

(** [r.shuttingDown.Store(true)]. *)
Definition store_shuttingDown (r : Reporter) : Reporter :=
  {| client := client r; authToken := authToken r; sessionID := sessionID r;
     tags := tags r; reports := reports r; shuttingDown := true;
     enabled := enabled r |}.

(** The client built when the configuration brings none. *)
Definition default_http_Client (roots : CertPool) : http_Client :=
  {| Timeout := 5; RootCAs := Some roots |}.

(** [NewReporter(ctx, logger, conf)]; [parentDone] is the state of [ctx]. *)
Definition NewReporter (h : Host) (parentDone : bool) (conf : Configuration)
  : list effect * outcome Reporter :=
  let enabled_ := String.eqb (os_Getenv h telemetryOptOutEnvVar) "" in
  let effs :=
    Getenv telemetryOptOutEnvVar ::
    (if negb enabled_ then [Log Info "Telemetry reporting is disabled"]
     else []) in
  let httpc :=
    match HTTPClient conf with
    | Some c => Ok c
    | None =>
        match rootsPEM_parsed h with
        | Some roots => Ok (default_http_Client roots)
        | None => Panic "failed to parse roots.pem"
        end
    end in
  match httpc with
  | Panic m => (effs, Panic m)
  | Ok c =>
      match SetLimit maxConcurrentReports (errgroup_WithContext parentDone) with
      | Panic m => (effs, Panic m)
      | Ok g =>
          match GenerateID (rand_Reader h) 16 with
          | Panic m => (effs, Panic m)
          | Ok sid =>
              (effs,
               Ok {| client := {| httpClient := c; baseURL := BaseURL conf |};
                     authToken := AuthToken conf;
                     sessionID := sid;
                     tags := conf_Tags conf;
                     reports := g;
                     shuttingDown := false;
                     enabled := enabled_ |})
          end
      end
  end.

(** The stamping done by [ReportEvent] on the caller's event, in place. *)
Definition stamp (r : Reporter) (now : Timestamp) (event : TelemetryEvent)
  : TelemetryEvent :=
  {| SessionId := if String.eqb (SessionId event) "" then sessionID r
                  else SessionId event;
     Timestamp_ := Some now;
     Kind := Kind event;
     Name := Name event;
     Message := Message event;
     Values := Values event;
     StackTrace := StackTrace event;
     Tags := Tags event ++ tags r |}.

(** [r.ReportEvent(event)]; [now] is what [timestamppb.Now()] reads. The
    result holds the reporter, the caller's event as the call leaves it, and
    what the call itself emitted. *)
Definition ReportEvent (now : Timestamp) (event : TelemetryEvent)
  (r : Reporter) : Reporter * TelemetryEvent * list effect :=
  if negb (enabled r) then
    (r, event, [Log Debug "Telemetry reporting is disabled, dropping event"])
  else
    let event' := stamp r now event in
    if shuttingDown r then
      (r, event', [Log Debug "Shutting down, dropping event"])
    else
      let '(g, started) := TryGo (ReportTask event') (reports r) in
      (with_reports g r, event',
       if negb started then
         [Log Warn "Too many in-flight telemetry reports, dropping event"]
       else []).

(** [fmt.Println(a, b)]: the operands separated by a space, then a newline. *)
Definition fmt_Println (a b : string) : string :=
  a +:+ " " +:+ b +:+ String (ascii_of_nat 10) EmptyString.

(** The request a report task builds. *)
Definition build_request (token : string) (event : TelemetryEvent) : Request :=
  let req := {| Msg := event; header := ∅ |} in
  if negb (String.eqb token "") then
    {| Msg := Msg req;
       header := Header_Set "Authorization" ("Bearer " +:+ token) (header req) |}
  else req.

(** The body of a task; [resp] is the error [client.Report] comes back with
    ([None] for an acknowledgement). The effects are those of the whole run
    of the task, gathered at its end. *)
Definition run_task (r : Reporter) (t : task) (resp : option error)
  : list effect * option error :=
  match t with
  | CancelTask => ([], Some context_Canceled)
  | ReportTask event =>
      let req := build_request (authToken r) event in
      (Report (Some 30) req ::
       match resp with
       | Some e =>
           [Stdout (fmt_Println "Failed to report event" (error_Error e));
            Log Debug "Failed to report event"]
       | None => []
       end,
       None)
  end.

(** One running task ends; [pick] chooses which, among those running. *)
Definition finish (pick : nat) (resp : option error) (r : Reporter)
  : Reporter * list effect :=
  let g := reports r in
  let i := (pick mod length (running g))%nat in
  match running g !! i with
  | None => (r, [])
  | Some t =>
      let '(effs, res) := run_task r t resp in
      (with_reports (task_done i res g) r, effs)
  end.

(** A schedule: which tasks end, in which order, and how their sends went. *)
Definition completion : Type := nat * option error.

(** Let tasks end, as scheduled, until the group satisfies [ready]. *)
Fixpoint settle (ready : Group -> bool) (sched : list completion)
  (r : Reporter) : Reporter * list completion * list effect :=
  if ready (reports r) then (r, sched, [])
  else
    match sched with
    | [] => (r, [], [])
    | (pick, resp) :: rest =>
        let '(r1, e1) := finish pick resp r in
        let '(r2, rest', e2) := settle ready rest r1 in
        (r2, rest', e1 ++ e2)
    end.

(** [if err != nil && !errors.Is(err, context.Canceled) { return err };
    return nil]. *)
Definition unless_canceled (werr : option error) : option error :=
  match werr with
  | Some e => if errors_Is e context_Canceled then None else Some e
  | None => None
  end.

(** [r.Close()] under a schedule for the running tasks. *)
Definition Close (sched : list completion) (r : Reporter)
  : call (option error) * Reporter * list effect :=
  let '(r1, sched1, e1) := settle has_slot sched r in
  match Go CancelTask (reports r1) with
  | Blocked => (Blocked, r1, e1)
  | Returns g1 =>
      let '(r2, _, e2) := settle drained sched1 (with_reports g1 r1) in
      match Wait (reports r2) with
      | Blocked => (Blocked, r2, e1 ++ e2)
      | Returns (g3, werr) =>
          (Returns (unless_canceled werr), with_reports g3 r2, e1 ++ e2)
      end
  end.

(** What happens while [Shutdown] sits in its [select]: a task ends, or the
    caller's context is done. *)
Inductive tick : Type :=
| Completes (pick : nat) (resp : option error)
| Deadline.

Fixpoint completions (timeline : list tick) : list completion :=
  match timeline with
  | [] => []
  | Completes pick resp :: rest => (pick, resp) :: completions rest
  | Deadline :: rest => completions rest
  end.

(** The [select] of [Shutdown]: [ctx.Done()] wins when it is next on the
    timeline, the waiting goroutine's result wins when the group is drained
    before that. *)
Fixpoint Shutdown_select (timeline : list tick) (r : Reporter)
  : call (option error) * Reporter * list effect :=
  match timeline with
  | Deadline :: rest => Close (completions rest) r
  | [] =>
      match Wait (reports r) with
      | Returns (g, werr) => (Returns (unless_canceled werr), with_reports g r, [])
      | Blocked => (Blocked, r, [])
      end
  | Completes pick resp :: rest =>
      match Wait (reports r) with
      | Returns (g, werr) => (Returns (unless_canceled werr), with_reports g r, [])
      | Blocked =>
          let '(r1, e1) := finish pick resp r in
          let '(res, r2, e2) := Shutdown_select rest r1 in
          (res, r2, e1 ++ e2)
      end
  end.

(** [r.Shutdown(ctx)]. *)
Definition Shutdown (timeline : list tick) (r : Reporter)
  : call (option error) * Reporter * list effect :=
  Shutdown_select timeline (store_shuttingDown r).

(** ** Runs of a reporter

    What can happen to a reporter between its construction and any later
    moment: calls of its methods, ends of its tasks, and the first statement
    of a [Shutdown] or [Close] that another goroutine has not finished yet. *)
Inductive action : Type :=
| CallReportEvent (now : Timestamp) (event : TelemetryEvent)
| TaskEnds (pick : nat) (resp : option error)
| CallShutdown (timeline : list tick)
| CallClose (sched : list completion)
| ShutdownStores
| CloseSpawns.

Definition step (a : action) (r : Reporter) : Reporter * list effect :=
  match a with
  | CallReportEvent now event =>
      let '(r', _, effs) := ReportEvent now event r in (r', effs)
  | TaskEnds pick resp => finish pick resp r
  | CallShutdown timeline =>
      let '(_, r', effs) := Shutdown timeline r in (r', effs)
  | CallClose sched =>
      let '(_, r', effs) := Close sched r in (r', effs)
  | ShutdownStores => (store_shuttingDown r, [])
  | CloseSpawns =>
      match Go CancelTask (reports r) with
      | Returns g => (with_reports g r, [])
      | Blocked => (r, [])
      end
  end.

Fixpoint run (acts : list action) (r : Reporter) : Reporter * list effect :=
  match acts with
  | [] => (r, [])
  | a :: rest =>
      let '(r1, e1) := step a r in
      let '(r2, e2) := run rest r1 in
      (r2, e1 ++ e2)
  end.

(** The values of the shutting-down flag along a run, the first included. *)
Fixpoint flag_history (acts : list action) (r : Reporter) : list bool :=
  shuttingDown r ::
  match acts with
  | [] => []
  | a :: rest => flag_history rest (fst (step a r))
  end.

(** How often a sequence of flag values goes from [false] to [true], and
    from [true] to [false]. *)
Fixpoint rises (l : list bool) : nat :=
  match l with
  | false :: (true :: _) as l' => S (rises l')
  | _ :: l' => rises l'
  | [] => O
  end.

Fixpoint falls (l : list bool) : nat :=
  match l with
  | true :: (false :: _) as l' => S (falls l')
  | _ :: l' => falls l'
  | [] => O
  end.

Definition is_Getenv (e : effect) : bool :=
  match e with Getenv _ => true | _ => false end.

(** How often a trace of effects reads the environment. *)
Definition count_Getenv (effs : list effect) : nat :=
  length (List.filter is_Getenv effs).

(** The requests a trace of effects sends. *)
Fixpoint requests (effs : list effect) : list Request :=
  match effs with
  | [] => []
  | Report _ req :: rest => req :: requests rest
  | _ :: rest => requests rest
  end.

(** ** The earlier, synchronous reporter (reporter.go) *)

Module Legacy.

Record Reporter : Type := {
  client : TelemetryClient;
  authToken : string;
  sessionID : string;
  enabled : bool
}.

(** [NewReporter(logger, baseURL, authToken)]. *)
Definition NewReporter (h : Host) (baseURL_ authToken_ : string)
  : list effect * outcome Reporter :=
  let enabled_ := String.eqb (os_Getenv h telemetryOptOutEnvVar) "" in
  let effs :=
    Getenv telemetryOptOutEnvVar ::
    (if negb enabled_ then [Log Info "Telemetry reporting is disabled"]
     else []) in
  match rootsPEM_parsed h with
  | None => (effs, Panic "failed to parse roots.pem")
  | Some roots =>
      match GenerateID (rand_Reader h) 16 with
      | Panic m => (effs, Panic m)
      | Ok sid =>
          (effs,
           Ok {| client := {| httpClient := default_http_Client roots;
                              baseURL := baseURL_ |};
                 authToken := authToken_;
                 sessionID := sid;
                 enabled := enabled_ |})
      end
  end.

(** [for _, tag := range event.Tags { if tag == "web" { ... break } }]. *)
Fixpoint has_web_tag (l : list string) : bool :=
  match l with
  | [] => false
  | tag :: rest => if String.eqb tag "web" then true else has_web_tag rest
  end.

(** [r.ReportEvent(event)]: the send happens within the call; [resp] is its
    result. *)
Definition ReportEvent (now : Timestamp) (resp : option error)
  (event : TelemetryEvent) (r : Reporter) : TelemetryEvent * list effect :=
  if negb (enabled r) then (event, [])
  else
    let event' :=
      {| SessionId := if String.eqb (SessionId event) "" then sessionID r
                      else SessionId event;
         Timestamp_ := Some now;
         Kind := Kind event;
         Name := Name event;
         Message := Message event;
         Values := Values event;
         StackTrace := StackTrace event;
         Tags := if negb (has_web_tag (Tags event))
                 then Tags event ++ ["backend"%string]
                 else Tags event |} in
    (event',
     Report None (build_request (authToken r) event') ::
     match resp with
     | Some _ => [Log Debug "Failed to report event"]
     | None => []
     end).

End Legacy.

(** ** Vocabulary of the properties *)

(** The fields of a reporter that are written at construction only. *)
Definition same_config (r r' : Reporter) : Prop :=
  client r' = client r /\ authToken r' = authToken r /\
  sessionID r' = sessionID r /\ tags r' = tags r /\ enabled r' = enabled r.

(** A group that kept no error, or kept the cancellation sentinel. *)
Definition benign (g : Group) : Prop :=
  err g = None \/ err g = Some context_Canceled.

(** The semaphore never holds more tokens than its capacity. *)
Definition within_limit (g : Group) : Prop :=
  match limit g with
  | Some n => (length (running g) <= n)%nat
  | None => True
  end.

(** What every later state of a reporter keeps of an earlier one. *)
Record evolves (r r' : Reporter) : Prop := {
  ev_config : same_config r r';
  ev_flag : shuttingDown r = true -> shuttingDown r' = true;
  ev_limit : limit (reports r') = limit (reports r);
  ev_within : within_limit (reports r) -> within_limit (reports r');
  ev_err : forall e, err (reports r) = Some e -> err (reports r') = Some e;
  ev_benign : benign (reports r) -> benign (reports r')
}.

(** What holds of every reporter in use. *)
Record sound (r : Reporter) : Prop := {
  sound_benign : benign (reports r);
  sound_limit : limit (reports r) = Some 16%nat;
  sound_within : within_limit (reports r);
  sound_session : String.length (sessionID r) = 16%nat;
  sound_letters : Forall in_letters (list_ascii_of_string (sessionID r))
}.

(** A trace of effects that does not read the environment. *)
Definition quiet (effs : list effect) : Prop := count_Getenv effs = O.

(** The host with one environment variable set to [value]. *)
Definition setenv (name value : string) (h : Host) : Host :=
  {| os_Getenv := fun k => if String.eqb k name then value else os_Getenv h k;
     rootsPEM_parsed := rootsPEM_parsed h;
     rand_Reader := rand_Reader h |}.

(** A reporter that [NewReporter] returned, after any run. *)
Definition reachable (r : Reporter) : Prop :=
  exists h parentDone conf r0 acts,
    snd (NewReporter h parentDone conf) = Ok r0 /\ fst (run acts r0) = r.

(** What the specification asks of the headers of a request sent on behalf
    of a reporter whose token is [token]. *)
Definition carries_auth (token : string) (req : Request) : Prop :=
  header req !! "Authorization"%string =
  if String.eqb token "" then None else Some ["Bearer " +:+ token].

(** An effect allowed after construction: no reading of the environment,
    and requests with the headers the token calls for. *)
Definition eff_ok (token : string) (e : effect) : Prop :=
  match e with
  | Getenv _ => False
  | Report _ req => carries_auth token req
  | _ => True
  end.

(** ** Sample inputs *)

Module Sample.

Definition reader : Reader := fun i => Some (Z.of_nat i * 7 + 3).

Definition host : Host :=
  {| os_Getenv := fun _ => ""%string;
     rootsPEM_parsed := Some ["ISRG Root X1"%string; "ISRG Root X2"%string];
     rand_Reader := reader |}.

Definition host_optout : Host := setenv telemetryOptOutEnvVar "1" host.

Definition conf : Configuration :=
  {| BaseURL := "https://telemetry.example";
     AuthToken := "s3cret";
     conf_Tags := ["cli"%string];
     HTTPClient := None |}.

Definition now : Timestamp := {| seconds := 1719792000; nanos := 42 |}.

Definition blank : TelemetryEvent :=
  {| SessionId := ""; Timestamp_ := None; Kind := INFO; Name := "test";
     Message := ""; Values := ∅; StackTrace := []; Tags := ["web"%string] |}.

Definition with_session : TelemetryEvent :=
  {| SessionId := "caller"; Timestamp_ := Some {| seconds := 1; nanos := 0 |};
     Kind := ERROR; Name := "crash"; Message := "boom";
     Values := {[ "os"%string := "linux"%string ]};
     StackTrace := [{| file := "main.go"; function := "main"; line := 10;
                       column := 2 |}];
     Tags := [] |}.

(** The reporter [NewReporter] returns on [host], and on [host_optout]. *)
Definition fresh (h : Host) : Reporter :=
  {| client := {| httpClient :=
                    default_http_Client ["ISRG Root X1"%string;
                                         "ISRG Root X2"%string];
                  baseURL := "https://telemetry.example" |};
     authToken := "s3cret";
     sessionID := "dkryFMT07elszGNU";
     tags := ["cli"%string];
     reports := {| limit := Some 16%nat; running := []; err := None;
                   ctxDone := false |};
     shuttingDown := false;
     enabled := String.eqb (os_Getenv h telemetryOptOutEnvVar) "" |}.

Definition active : Reporter := fresh host.
Definition disabled : Reporter := fresh host_optout.

(** Sixteen reports in flight, none ended. *)
Definition sixteen : list action := repeat (CallReportEvent now blank) 16.
Definition full : Reporter := fst (run sixteen active).

(** The same while a [Shutdown] has stored its flag. *)
Definition full_shutting : Reporter :=
  fst (run (sixteen ++ [ShutdownStores]) active).

(** A group that kept a transport-like error, as a generic group may. *)
Definition failed : Reporter :=
  with_reports {| limit := Some 16%nat; running := [CancelTask];
                  err := Some (ErrMsg "boom"); ctxDone := true |} active.

Definition legacy : Legacy.Reporter :=
  {| Legacy.client := client active; Legacy.authToken := "s3cret";
     Legacy.sessionID := "dkryFMT07elszGNU"; Legacy.enabled := true |}.

End Sample.

(** ** Vocabulary of the further properties *)

(** The requests that the running report tasks stand for, in their order. *)
Fixpoint pending (token : string) (l : list task) : list Request :=
  match l with
  | [] => []
  | ReportTask event :: rest => build_request token event :: pending token rest
  | CancelTask :: rest => pending token rest
  end.

(** Whether [ReportEvent] would hand its event to the group: the reporter is
    enabled, is not shutting down, and the semaphore has a free token. *)
Definition accepts (r : Reporter) : bool :=
  enabled r && negb (shuttingDown r) && has_slot (reports r).

(** The requests of the events that the [ReportEvent] calls of a run hand
    to the group, in the order of the calls. *)
Fixpoint accepted (acts : list action) (r : Reporter) : list Request :=
  match acts with
  | [] => []
  | a :: rest =>
      match a with
      | CallReportEvent now event =>
          if accepts r then [build_request (authToken r) (stamp r now event)]
          else []
      | _ => []
      end ++ accepted rest (fst (step a r))
  end.

(** What a reporter may still emit once it is constructed: sends under the
    30-second deadline, the line on standard output, and messages below
    the info level. *)
Definition late_effect (e : effect) : Prop :=
  match e with
  | Getenv _ => False
  | Log lvl _ => lvl <> Info
  | Stdout _ => True
  | Report timeout _ => timeout = Some 30
  end.

(** The position of a character in a list, the length of the list when it
    does not occur. *)
Fixpoint index_of (c : ascii) (l : list ascii) : nat :=
  match l with
  | [] => O
  | a :: rest => if Ascii.eqb a c then O else S (index_of c rest)
  end.

(** The reader whose draws are the positions, in the alphabet, of the
    characters of [s]. *)
Definition reader_for (s : string) : Reader :=
  fun i =>
    match String.get i s with
    | Some c => Some (Z.of_nat (index_of c (list_ascii_of_string letters)))
    | None => None
    end.

(** What a stretch of the life of a reporter sends is what it took off the
    group. *)
Definition conserves (r r' : Reporter) (effs : list effect) : Prop :=
  requests effs ++ pending (authToken r) (running (reports r'))
  ≡ₚ pending (authToken r) (running (reports r)).

(** The cancellation of [Close] is on its way or has arrived. *)
Definition cancel_seen (g : Group) : Prop :=
  CancelTask ∈ running g \/ err g <> None.

(** The actions in which [Shutdown] takes part. *)
Definition is_shutdown (a : action) : bool :=
  match a with
  | CallShutdown _ | ShutdownStores => true
  | _ => false
  end.

(** * Properties *)

(** ** Errors *)

Lemma error_eqb_eq (a b : error) : error_eqb a b = true <-> a = b.
Proof.
  revert b; induction a as [| |m|m a IH]; intros [| |m'|m' b]; simpl;
    try (split; [discriminate | congruence]); try tauto.
  - rewrite String.eqb_eq. split; congruence.
  - rewrite andb_true_iff, String.eqb_eq, IH. split; [intros []|intros [=]]; by subst.
Qed.

Lemma errors_Is_refl (e : error) : errors_Is e e = true.
Proof.
  destruct e; simpl; try reflexivity.
  - by rewrite String.eqb_refl.
  - rewrite String.eqb_refl. simpl.
    by rewrite (proj2 (error_eqb_eq _ _) eq_refl).
Qed.

(** ** GenerateID *)

Lemma string_get_in (s : string) (m : nat) (c : ascii) :
  String.get m s = Some c -> In c (list_ascii_of_string s).
Proof.
  revert m; induction s as [|a s IH]; intros m; simpl; [discriminate|].
  destruct m as [|m]; [intros [= ->]; by left | intros H; right; eauto].
Qed.

Lemma string_get_lt (s : string) (m : nat) :
  (m < String.length s)%nat -> is_Some (String.get m s).
Proof.
  revert m; induction s as [|a s IH]; intros m; simpl; [lia|].
  destruct m as [|m]; [eauto | intros H; apply IH; lia].
Qed.

Lemma string_of_list_ascii_length (l : list ascii) :
  String.length (string_of_list_ascii l) = length l.
Proof. induction l as [|a l IH]; simpl; congruence. Qed.

Lemma letters_length : String.length letters = 62%nat.
Proof. reflexivity. Qed.

Lemma rand_Int_range (rd : Reader) (i : nat) (max r : Z) :
  0 < max -> rand_Int rd i max = Ok r -> 0 <= r < max.
Proof.
  unfold rand_Int. destruct (rd i) as [v|]; [|discriminate].
  intros Hmax [= <-]. by apply Z.mod_pos_bound.
Qed.

(** The loop writes a letter at each index it visits and nothing else. *)
Lemma GenerateID_loop_spec (rd : Reader) (k : nat) :
  forall (i : nat) (id id' : list ascii),
    GenerateID_loop rd k i id = Ok id' ->
    (i + k <= length id)%nat ->
    length id' = length id /\
    (forall j, (j < i)%nat \/ (i + k <= j)%nat -> id' !! j = id !! j) /\
    (forall j, (i <= j < i + k)%nat ->
               exists c, id' !! j = Some c /\ in_letters c).
Proof.
  induction k as [|k IH]; intros i id id' Hrun Hlen;
    cbn [GenerateID_loop] in Hrun.
  - injection Hrun as <-. split; [done|]. split; [done|]. intros j Hj. lia.
  - destruct (rand_Int rd i _) as [r|] eqn:Hr; [|discriminate].
    destruct (String.get (Z.to_nat r) letters) as [c|] eqn:Hc; [|discriminate].
    apply IH in Hrun as (Hl & Hout & Hin); [|rewrite length_insert; lia].
    rewrite length_insert in Hl. split; [done|]. split.
    + intros j Hj. rewrite Hout by lia.
      apply list_lookup_insert_ne. lia.
    + intros j Hj. destruct (decide (j = i)) as [->|Hne].
      * exists c. split; [|by eapply string_get_in].
        rewrite Hout by lia. apply list_lookup_insert_eq. lia.
      * apply Hin. lia.
Qed.

(** The loop runs to its end when the reader delivers every draw. *)
Lemma GenerateID_loop_total (rd : Reader) (k : nat) :
  forall (i : nat) (id : list ascii),
    (forall j, (i <= j < i + k)%nat -> is_Some (rd j)) ->
    exists id', GenerateID_loop rd k i id = Ok id'.
Proof.
  induction k as [|k IH]; intros i id Hrd; cbn [GenerateID_loop]; [eauto|].
  destruct (Hrd i ltac:(lia)) as [v Hv].
  unfold rand_Int at 1. rewrite Hv.
  destruct (string_get_lt letters (Z.to_nat (v mod Z.of_nat (String.length letters))))
    as [c ->].
  { rewrite letters_length.
    pose proof (Z.mod_pos_bound v 62 ltac:(lia)). lia. }
  apply IH. intros j Hj. apply Hrd. lia.
Qed.

Lemma GenerateID_sound (rd : Reader) (n : Z) (s : string) :
  GenerateID rd n = Ok s ->
  0 <= n /\ String.length s = Z.to_nat n /\
  Forall in_letters (list_ascii_of_string s).
Proof.
  unfold GenerateID. destruct (n <? 0) eqn:Hn; [discriminate|].
  apply Z.ltb_ge in Hn.
  destruct (GenerateID_loop _ _ _ _) as [id|] eqn:Hrun; [|discriminate].
  intros [= <-].
  apply GenerateID_loop_spec in Hrun as (Hl & _ & Hin);
    [|rewrite length_replicate; lia].
  rewrite length_replicate in Hl.
  rewrite string_of_list_ascii_length, list_ascii_of_string_of_list_ascii.
  repeat split; [done..|].
  apply Forall_lookup_2. intros j c Hj.
  destruct (Hin j) as (c' & Hc' & Hlet).
  { apply lookup_lt_Some in Hj. lia. }
  congruence.
Qed.

Lemma GenerateID_total (rd : Reader) (n : Z) :
  0 <= n -> (forall i, (i < Z.to_nat n)%nat -> is_Some (rd i)) ->
  exists s, GenerateID rd n = Ok s.
Proof.
  intros Hn Hrd. unfold GenerateID.
  destruct (n <? 0) eqn:Hlt; [apply Z.ltb_lt in Hlt; lia|].
  destruct (GenerateID_loop_total rd (Z.to_nat n) 0 (replicate (Z.to_nat n) zero))
    as [id ->]; [|eauto].
  intros j Hj. apply Hrd. lia.
Qed.

Lemma letters_alnum (c : ascii) : in_letters c <-> is_alnum c = true.
Proof.
  split.
  - unfold in_letters. intros H. vm_compute in H.
    repeat (destruct H as [<-|H]; [reflexivity|]). destruct H.
  - destruct c as [[] [] [] [] [] [] [] []]; vm_compute; intros H;
      try discriminate; tauto.
Qed.

Lemma letters_NoDup : NoDup (list_ascii_of_string letters).
Proof.
  apply (NoDup_fmap_1 nat_of_ascii). vm_compute.
  repeat (apply NoDup_cons_2; [intros H; repeat (apply elem_of_cons in H as [H|H]; [discriminate|]); by apply elem_of_nil in H|]).
  apply NoDup_nil_2.
Qed.

(** ** How a reporter evolves *)

Lemma evolves_refl (r : Reporter) : evolves r r.
Proof. by split. Qed.

Lemma evolves_trans (r1 r2 r3 : Reporter) :
  evolves r1 r2 -> evolves r2 r3 -> evolves r1 r3.
Proof.
  intros [(?&?&?&?&?) ? ? ? ? ?] [(?&?&?&?&?) ? ? ? ? ?].
  split; [unfold same_config; repeat split; congruence|auto..|auto].
  - congruence.
Qed.

Lemma run_task_result (r : Reporter) (t : task) (resp : option error) :
  snd (run_task r t resp) =
  match t with ReportTask _ => None | CancelTask => Some context_Canceled end.
Proof. by destruct t. Qed.

Lemma length_delete_le {A} (l : list A) (i : nat) :
  (length (delete i l) <= length l)%nat.
Proof.
  revert i; induction l as [|a l IH]; intros [|i]; simpl; try lia.
  specialize (IH i). lia.
Qed.

Lemma evolves_task_done (r : Reporter) (i : nat) (res : option error) :
  res = None \/ res = Some context_Canceled ->
  evolves r (with_reports (task_done i res (reports r)) r).
Proof.
  intros Hres. split; simpl; try done.
  - unfold within_limit; simpl. destruct (limit (reports r)); [|done].
    pose proof (length_delete_le (running (reports r)) i). lia.
  - by intros e ->.
  - unfold benign; simpl. intros [->| ->]; [done | by right].
Qed.

Lemma evolves_finish (pick : nat) (resp : option error) (r : Reporter) :
  evolves r (fst (finish pick resp r)).
Proof.
  unfold finish. destruct (running (reports r) !! _) as [t|]; [|apply evolves_refl].
  pose proof (run_task_result r t resp) as Hres.
  destruct (run_task r t resp) as [effs res]; simpl in *.
  apply evolves_task_done. destruct t; auto.
Qed.

Lemma evolves_settle (ready : Group -> bool) (sched : list completion) :
  forall r, evolves r (fst (fst (settle ready sched r))).
Proof.
  induction sched as [|[pick resp] rest IH]; intros r; simpl;
    destruct (ready (reports r)); try apply evolves_refl.
  pose proof (evolves_finish pick resp r) as H1.
  destruct (finish pick resp r) as [r1 e1]; simpl in H1.
  specialize (IH r1). destruct (settle ready rest r1) as [[r2 rest'] e2].
  simpl in *. by eapply evolves_trans.
Qed.

Lemma has_slot_spawn_within (t : task) (g : Group) :
  has_slot g = true -> within_limit g -> within_limit (spawn t g).
Proof.
  unfold has_slot, within_limit; simpl. destruct (limit g); [|done].
  rewrite length_app; simpl. intros H%Nat.ltb_lt. lia.
Qed.

Lemma evolves_spawn (t : task) (r : Reporter) :
  has_slot (reports r) = true ->
  evolves r (with_reports (spawn t (reports r)) r).
Proof.
  intros Hslot. split; simpl; try done.
  by apply has_slot_spawn_within.
Qed.

Lemma evolves_wait (r : Reporter) (g : Group) (werr : option error) :
  Wait (reports r) = Returns (g, werr) ->
  evolves r (with_reports g r) /\ werr = err (reports r) /\
  err g = err (reports r) /\ running g = [] /\ ctxDone g = true.
Proof.
  unfold Wait, drained. destruct (running (reports r)) eqn:Hrun; [|discriminate].
  intros [= <- <-]. split; [|by simpl].
  split; simpl; try done.
  unfold within_limit; simpl. by rewrite Hrun.
Qed.

Lemma evolves_Close (sched : list completion) (r : Reporter) :
  evolves r (snd (fst (Close sched r))).
Proof.
  unfold Close.
  pose proof (evolves_settle has_slot sched r) as H1.
  destruct (settle has_slot sched r) as [[r1 sched1] e1]; simpl in H1.
  unfold Go. destruct (has_slot (reports r1)) eqn:Hslot; [|done].
  pose proof (evolves_spawn CancelTask r1 Hslot) as H2.
  pose proof (evolves_settle drained sched1
                (with_reports (spawn CancelTask (reports r1)) r1)) as H3.
  destruct (settle drained sched1 _) as [[r2 rest] e2]; simpl in H3.
  assert (evolves r r2) as H4 by eauto using evolves_trans.
  destruct (Wait (reports r2)) as [[g3 werr]|] eqn:Hw; [|done].
  apply evolves_wait in Hw as [H5 _]. simpl. by eapply evolves_trans.
Qed.

Lemma evolves_Shutdown_select (timeline : list tick) :
  forall r, evolves r (snd (fst (Shutdown_select timeline r))).
Proof.
  induction timeline as [|[pick resp|] rest IH]; intros r; simpl.
  - destruct (Wait (reports r)) as [[g werr]|] eqn:Hw; [|apply evolves_refl].
    by apply evolves_wait in Hw as [H _].
  - destruct (Wait (reports r)) as [[g werr]|] eqn:Hw.
    { by apply evolves_wait in Hw as [H _]. }
    pose proof (evolves_finish pick resp r) as H1.
    destruct (finish pick resp r) as [r1 e1]; simpl in H1.
    specialize (IH r1). destruct (Shutdown_select rest r1) as [[res r2] e2].
    simpl in *. by eapply evolves_trans.
  - apply evolves_Close.
Qed.

Lemma evolves_store (r : Reporter) : evolves r (store_shuttingDown r).
Proof. by split. Qed.

Lemma evolves_Shutdown (timeline : list tick) (r : Reporter) :
  evolves r (snd (fst (Shutdown timeline r))).
Proof.
  unfold Shutdown. eapply evolves_trans; [apply evolves_store|].
  apply evolves_Shutdown_select.
Qed.

Lemma evolves_ReportEvent (now : Timestamp) (event : TelemetryEvent)
  (r : Reporter) : evolves r (fst (fst (ReportEvent now event r))).
Proof.
  unfold ReportEvent. destruct (enabled r); simpl; [|apply evolves_refl].
  destruct (shuttingDown r); simpl; [apply evolves_refl|].
  unfold TryGo. destruct (has_slot (reports r)) eqn:Hslot; simpl.
  - by apply evolves_spawn.
  - destruct r; apply evolves_refl.
Qed.

Lemma evolves_step (a : action) (r : Reporter) : evolves r (fst (step a r)).
Proof.
  destruct a as [now event|pick resp|timeline|sched| |]; simpl.
  - pose proof (evolves_ReportEvent now event r) as H.
    by destruct (ReportEvent now event r) as [[r' ev'] effs].
  - apply evolves_finish.
  - pose proof (evolves_Shutdown timeline r) as H.
    by destruct (Shutdown timeline r) as [[res r'] effs].
  - pose proof (evolves_Close sched r) as H.
    by destruct (Close sched r) as [[res r'] effs].
  - apply evolves_store.
  - unfold Go. destruct (has_slot (reports r)) eqn:Hslot; simpl;
      [by apply evolves_spawn | apply evolves_refl].
Qed.

Lemma evolves_run (acts : list action) :
  forall r, evolves r (fst (run acts r)).
Proof.
  induction acts as [|a rest IH]; intros r; simpl; [apply evolves_refl|].
  pose proof (evolves_step a r) as H1.
  destruct (step a r) as [r1 e1]; simpl in H1.
  specialize (IH r1). destruct (run rest r1) as [r2 e2]; simpl in *.
  by eapply evolves_trans.
Qed.

(** ** What the operations emit *)

Lemma build_request_carries_auth (token : string) (event : TelemetryEvent) :
  carries_auth token (build_request token event).
Proof.
  unfold carries_auth, build_request.
  destruct (String.eqb token ""); simpl; [done|].
  unfold Header_Set. by rewrite lookup_insert_eq.
Qed.

Lemma eff_ok_run_task (r : Reporter) (t : task) (resp : option error) :
  Forall (eff_ok (authToken r)) (fst (run_task r t resp)).
Proof.
  destruct t as [event|]; simpl; [|constructor].
  constructor; [apply build_request_carries_auth|].
  destruct resp; repeat constructor.
Qed.

Lemma eff_ok_finish (pick : nat) (resp : option error) (r : Reporter) :
  Forall (eff_ok (authToken r)) (snd (finish pick resp r)).
Proof.
  unfold finish. destruct (running (reports r) !! _) as [t|]; [|constructor].
  pose proof (eff_ok_run_task r t resp) as H.
  by destruct (run_task r t resp).
Qed.

Lemma evolves_authToken (r r' : Reporter) :
  evolves r r' -> authToken r' = authToken r.
Proof. by intros [(_ & ? & _) _ _ _ _ _]. Qed.

Lemma eff_ok_settle (ready : Group -> bool) (sched : list completion) :
  forall r, Forall (eff_ok (authToken r)) (snd (settle ready sched r)).
Proof.
  induction sched as [|[pick resp] rest IH]; intros r; simpl;
    destruct (ready (reports r)); try constructor.
  pose proof (eff_ok_finish pick resp r) as H1.
  pose proof (evolves_authToken _ _ (evolves_finish pick resp r)) as Ht.
  destruct (finish pick resp r) as [r1 e1]; simpl in *.
  specialize (IH r1). destruct (settle ready rest r1) as [[r2 rest'] e2].
  simpl in *. apply Forall_app. split; [done|]. by rewrite <- Ht.
Qed.

Lemma eff_ok_Close (sched : list completion) (r : Reporter) :
  Forall (eff_ok (authToken r)) (snd (Close sched r)).
Proof.
  unfold Close.
  pose proof (eff_ok_settle has_slot sched r) as H1.
  pose proof (evolves_authToken _ _ (evolves_settle has_slot sched r)) as Ht.
  destruct (settle has_slot sched r) as [[r1 sched1] e1]; simpl in *.
  unfold Go. destruct (has_slot (reports r1)); [|done].
  pose proof (eff_ok_settle drained sched1
                (with_reports (spawn CancelTask (reports r1)) r1)) as H2.
  destruct (settle drained sched1 _) as [[r2 rest] e2]; simpl in H2.
  rewrite Ht in H2.
  assert (Forall (eff_ok (authToken r)) (e1 ++ e2)) by (apply Forall_app; done).
  by destruct (Wait (reports r2)) as [[g3 werr]|].
Qed.

Lemma eff_ok_Shutdown_select (timeline : list tick) :
  forall r, Forall (eff_ok (authToken r)) (snd (Shutdown_select timeline r)).
Proof.
  induction timeline as [|[pick resp|] rest IH]; intros r; simpl.
  - destruct (Wait (reports r)) as [[g werr]|]; constructor.
  - destruct (Wait (reports r)) as [[g werr]|]; [constructor|].
    pose proof (eff_ok_finish pick resp r) as H1.
    pose proof (evolves_authToken _ _ (evolves_finish pick resp r)) as Ht.
    destruct (finish pick resp r) as [r1 e1]; simpl in *.
    specialize (IH r1). destruct (Shutdown_select rest r1) as [[res r2] e2].
    simpl in *. apply Forall_app. split; [done|]. by rewrite <- Ht.
  - apply eff_ok_Close.
Qed.

Lemma eff_ok_ReportEvent (now : Timestamp) (event : TelemetryEvent)
  (r : Reporter) : Forall (eff_ok (authToken r)) (snd (ReportEvent now event r)).
Proof.
  unfold ReportEvent. destruct (enabled r); simpl; [|repeat constructor].
  destruct (shuttingDown r); simpl; [repeat constructor|].
  unfold TryGo. destruct (has_slot (reports r)); simpl; repeat constructor.
Qed.

Lemma eff_ok_step (a : action) (r : Reporter) :
  Forall (eff_ok (authToken r)) (snd (step a r)).
Proof.
  destruct a as [now event|pick resp|timeline|sched| |]; simpl.
  - pose proof (eff_ok_ReportEvent now event r) as H.
    by destruct (ReportEvent now event r) as [[r' ev'] effs].
  - apply eff_ok_finish.
  - pose proof (eff_ok_Shutdown_select timeline (store_shuttingDown r)) as H.
    unfold Shutdown.
    by destruct (Shutdown_select timeline _) as [[res r'] effs].
  - pose proof (eff_ok_Close sched r) as H.
    by destruct (Close sched r) as [[res r'] effs].
  - constructor.
  - unfold Go. destruct (has_slot (reports r)); constructor.
Qed.

Lemma eff_ok_run (acts : list action) :
  forall r, Forall (eff_ok (authToken r)) (snd (run acts r)).
Proof.
  induction acts as [|a rest IH]; intros r; simpl; [constructor|].
  pose proof (eff_ok_step a r) as H1.
  pose proof (evolves_authToken _ _ (evolves_step a r)) as Ht.
  destruct (step a r) as [r1 e1]; simpl in *.
  specialize (IH r1). destruct (run rest r1) as [r2 e2]; simpl in *.
  apply Forall_app. split; [done|]. by rewrite <- Ht.
Qed.

Lemma eff_ok_quiet (token : string) (effs : list effect) :
  Forall (eff_ok token) effs -> quiet effs.
Proof.
  unfold quiet, count_Getenv.
  induction 1 as [|e effs He _ IH]; [done|].
  destruct e; simpl in *; done.
Qed.

Lemma eff_ok_requests (token : string) (effs : list effect) (req : Request) :
  Forall (eff_ok token) effs -> In req (requests effs) -> carries_auth token req.
Proof.
  induction 1 as [|e effs He _ IH]; simpl; [done|].
  destruct e; simpl in *; auto. intros [<-|?]; auto.
Qed.

(** ** Progress of the waits *)

Lemma finish_length (pick : nat) (resp : option error) (r : Reporter) :
  running (reports r) <> [] ->
  S (length (running (reports (fst (finish pick resp r))))) =
  length (running (reports r)).
Proof.
  intros Hne. unfold finish.
  assert (pick mod length (running (reports r)) < length (running (reports r)))%nat
    as Hlt.
  { apply Nat.mod_upper_bound. by destruct (running (reports r)). }
  destruct (lookup_lt_is_Some_2 _ _ Hlt) as [t Ht]. rewrite Ht.
  destruct (run_task r t resp) as [effs res]; simpl.
  rewrite length_delete by eauto. lia.
Qed.

(** Every scheduled end that [settle] uses takes one task off the group. *)
Lemma settle_balance (ready : Group -> bool) (sched : list completion) :
  forall r,
    (forall g, limit g = limit (reports r) -> ready g = false ->
               running g <> []) ->
    let '(r', rest, _) := settle ready sched r in
    (ready (reports r') = true \/ rest = []) /\
    (length (running (reports r')) + length sched =
     length (running (reports r)) + length rest)%nat.
Proof.
  induction sched as [|[pick resp] rest IH]; intros r Hready; simpl;
    destruct (ready (reports r)) eqn:Hr; try (split; [auto|simpl; lia]).
  pose proof (finish_length pick resp r (Hready _ eq_refl Hr)) as Hlen.
  pose proof (ev_limit _ _ (evolves_finish pick resp r)) as Hlim.
  destruct (finish pick resp r) as [r1 e1]; simpl in *.
  specialize (IH r1). rewrite Hlim in IH. specialize (IH Hready).
  destruct (settle ready rest r1) as [[r2 rest'] e2].
  destruct IH as [IH1 IH2]. split; [done|lia].
Qed.

Lemma drained_false (g : Group) : drained g = false -> running g <> [].
Proof. unfold drained. by destruct (running g). Qed.

Lemma has_slot_false (g : Group) (n : nat) :
  limit g = Some n -> (0 < n)%nat -> has_slot g = false -> running g <> [].
Proof.
  unfold has_slot. intros -> Hn H%Nat.ltb_ge.
  destruct (running g); simpl in *; [lia|done].
Qed.

Lemma Close_result (sched : list completion) (r r' : Reporter)
  (res : option error) (effs : list effect) :
  Close sched r = (Returns res, r', effs) ->
  res = unless_canceled (err (reports r')) /\ running (reports r') = [].
Proof.
  unfold Close. destruct (settle has_slot sched r) as [[r1 sched1] e1].
  destruct (Go CancelTask (reports r1)) as [g1|]; [|discriminate].
  destruct (settle drained sched1 _) as [[r2 rest] e2].
  destruct (Wait (reports r2)) as [[g3 werr]|] eqn:Hw; [|discriminate].
  apply evolves_wait in Hw as (_ & -> & Herr & Hrun & _).
  intros [= <- <- _]. simpl. by rewrite Herr.
Qed.

Lemma Close_total (sched : list completion) (r : Reporter) (n : nat) :
  limit (reports r) = Some n -> (0 < n)%nat ->
  (length (running (reports r)) < length sched)%nat ->
  exists res r' effs, Close sched r = (Returns res, r', effs).
Proof.
  intros Hlim Hn Hlen. unfold Close.
  pose proof (settle_balance has_slot sched r) as H1.
  pose proof (ev_limit _ _ (evolves_settle has_slot sched r)) as Hlim1.
  destruct (settle has_slot sched r) as [[r1 sched1] e1]; simpl in Hlim1.
  destruct H1 as [Hslot Hbal].
  { intros g Hg. apply (has_slot_false g n); congruence. }
  destruct Hslot as [Hslot| ->]; [|simpl in Hbal; lia].
  unfold Go. rewrite Hslot.
  pose proof (settle_balance drained sched1
                (with_reports (spawn CancelTask (reports r1)) r1)) as H2.
  destruct (settle drained sched1 _) as [[r2 rest] e2].
  destruct H2 as [Hdr Hbal2]; [intros g _; apply drained_false|].
  simpl in Hbal2. rewrite length_app in Hbal2. simpl in Hbal2.
  assert (drained (reports r2) = true) as Hd.
  { destruct Hdr as [?| ->]; [done|]. simpl in Hbal2.
    unfold drained. destruct (running (reports r2)); [done|simpl in *; lia]. }
  unfold Wait. rewrite Hd. eauto.
Qed.

Lemma Shutdown_select_result (timeline : list tick) :
  forall (r r' : Reporter) (res : option error) (effs : list effect),
    Shutdown_select timeline r = (Returns res, r', effs) ->
    res = unless_canceled (err (reports r')).
Proof.
  induction timeline as [|[pick resp|] rest IH]; intros r r' res effs; simpl.
  - destruct (Wait (reports r)) as [[g werr]|] eqn:Hw; [|discriminate].
    apply evolves_wait in Hw as (_ & -> & Herr & _).
    intros [= <- <- _]. simpl. by rewrite Herr.
  - destruct (Wait (reports r)) as [[g werr]|] eqn:Hw.
    { apply evolves_wait in Hw as (_ & -> & Herr & _).
      intros [= <- <- _]. simpl. by rewrite Herr. }
    destruct (finish pick resp r) as [r1 e1].
    specialize (IH r1). destruct (Shutdown_select rest r1) as [[res2 r2] e2].
    intros [= -> <- _]. by eapply IH.
  - intros H. by apply Close_result in H as [? _].
Qed.

Lemma length_completions_le (timeline : list tick) :
  (length (completions timeline) <= length timeline)%nat.
Proof. induction timeline as [|[]]; simpl; lia. Qed.

Lemma Shutdown_select_total (timeline : list tick) (n : nat) :
  (0 < n)%nat ->
  forall r,
    limit (reports r) = Some n ->
    (length (running (reports r)) < length (completions timeline))%nat ->
    exists res r' effs, Shutdown_select timeline r = (Returns res, r', effs).
Proof.
  intros Hn. induction timeline as [|[pick resp|] rest IH]; intros r Hlim Hlen;
    simpl in *; [lia| |by eapply Close_total].
  unfold Wait. destruct (drained (reports r)) eqn:Hd; [eauto|].
  pose proof (finish_length pick resp r (drained_false _ Hd)) as Hfl.
  pose proof (ev_limit _ _ (evolves_finish pick resp r)) as Hlim1.
  destruct (finish pick resp r) as [r1 e1]; simpl in *.
  destruct (IH r1) as (res & r' & effs & ->); [congruence|lia|eauto].
Qed.

(** ** Construction *)

Lemma NewReporter_Ok (h : Host) (parentDone : bool) (conf : Configuration)
  (r : Reporter) :
  snd (NewReporter h parentDone conf) = Ok r ->
  GenerateID (rand_Reader h) 16 = Ok (sessionID r) /\
  authToken r = AuthToken conf /\ tags r = conf_Tags conf /\
  enabled r = String.eqb (os_Getenv h telemetryOptOutEnvVar) "" /\
  shuttingDown r = false /\
  reports r = {| limit := Some 16%nat; running := []; err := None;
                 ctxDone := parentDone |}.
Proof.
  unfold NewReporter.
  destruct (match HTTPClient conf with Some c => _ | None => _ end) as [c|];
    [|discriminate].
  change (SetLimit maxConcurrentReports (errgroup_WithContext parentDone))
    with (Ok {| limit := Some 16%nat; running := []; err := None;
                ctxDone := parentDone |}).
  destruct (GenerateID (rand_Reader h) 16) as [sid|]; [|discriminate].
  by intros [= <-].
Qed.

Lemma NewReporter_effects (h : Host) (parentDone : bool) (conf : Configuration) :
  fst (NewReporter h parentDone conf) =
  Getenv telemetryOptOutEnvVar ::
  (if String.eqb (os_Getenv h telemetryOptOutEnvVar) "" then []
   else [Log Info "Telemetry reporting is disabled"]).
Proof.
  unfold NewReporter.
  destruct (match HTTPClient conf with Some c => _ | None => _ end) as [c|];
    [|by destruct (String.eqb _ _)].
  change (SetLimit maxConcurrentReports (errgroup_WithContext parentDone))
    with (Ok {| limit := Some 16%nat; running := []; err := None;
                ctxDone := parentDone |}).
  destruct (GenerateID (rand_Reader h) 16) as [sid|];
    by destruct (String.eqb _ _).
Qed.

(** Construction goes the same way whatever the opt-out variable holds. *)
Lemma NewReporter_setenv (h : Host) (parentDone : bool) (conf : Configuration)
  (r : Reporter) (value : string) :
  snd (NewReporter h parentDone conf) = Ok r ->
  exists r',
    snd (NewReporter (setenv telemetryOptOutEnvVar value h) parentDone conf)
    = Ok r' /\
    enabled r' = String.eqb value "".
Proof.
  unfold NewReporter. simpl.
  destruct (match HTTPClient conf with Some c => _ | None => _ end) as [c|];
    [|discriminate].
  change (SetLimit maxConcurrentReports (errgroup_WithContext parentDone))
    with (Ok {| limit := Some 16%nat; running := []; err := None;
                ctxDone := parentDone |}).
  destruct (GenerateID (rand_Reader h) 16) as [sid|]; [|discriminate].
  intros _. eexists. split; [reflexivity|]. simpl. reflexivity.
Qed.

(** ** What holds of every reporter in use *)

Lemma reachable_sound (r : Reporter) : reachable r -> sound r.
Proof.
  intros (h & pd & conf & r0 & acts & Hnew & <-).
  apply NewReporter_Ok in Hnew as (Hid & _ & _ & _ & _ & Hg).
  apply GenerateID_sound in Hid as (_ & Hlen & Hlet).
  pose proof (evolves_run acts r0) as [(_ & _ & Hs & _) _ Hl Hw _ Hb].
  rewrite Hg in *. split.
  - apply Hb. by left.
  - by rewrite Hl.
  - apply Hw. unfold within_limit. simpl. lia.
  - by rewrite Hs.
  - by rewrite Hs.
Qed.

(** ** The flag along a run *)

Lemma flag_history_monotone (acts : list action) :
  forall r,
    falls (flag_history acts r) = O /\
    (rises (flag_history acts r) <= if shuttingDown r then 0 else 1)%nat.
Proof.
  induction acts as [|a rest IH]; intros r.
  - simpl. destruct (shuttingDown r); simpl; lia.
  - pose proof (ev_flag _ _ (evolves_step a r)) as Hmono.
    specialize (IH (fst (step a r))).
    cbn [flag_history]. 
    destruct rest as [|b rest']; cbn [flag_history] in *;
      destruct (shuttingDown r);
      destruct (shuttingDown (fst (step a r)));
      try (specialize (Hmono eq_refl); discriminate);
      cbn [falls rises] in *; lia.
Qed.

(** ** Small facts used by the properties below *)

Lemma with_reports_same (r : Reporter) : with_reports (reports r) r = r.
Proof. by destruct r. Qed.

Lemma string_length_nonempty (s : string) (n : nat) :
  String.length s = S n -> s <> ""%string.
Proof. by destruct s. Qed.

Lemma unless_canceled_None (g : Group) :
  benign g -> unless_canceled (err g) = None.
Proof. by intros [-> | ->]. Qed.

Lemma ReportEvent_shutting_down (now : Timestamp) (event : TelemetryEvent)
  (r : Reporter) :
  enabled r = true -> shuttingDown r = true ->
  ReportEvent now event r =
  (r, stamp r now event, [Log Debug "Shutting down, dropping event"]).
Proof. unfold ReportEvent. by intros -> ->. Qed.

Lemma sample_active_reachable : reachable Sample.active.
Proof.
  exists Sample.host, false, Sample.conf, Sample.active, [].
  split; vm_compute; reflexivity.
Qed.

Lemma sample_full_reachable : reachable Sample.full.
Proof.
  exists Sample.host, false, Sample.conf, Sample.active, Sample.sixteen.
  split; vm_compute; reflexivity.
Qed.

(** ** C1 *)

(** C1, as the code has it: [ReportEvent] on an enabled reporter leaves the
    event with a non-empty session id, the timestamp read at the call, and
    the caller's tags followed by the reporter's; on a disabled reporter it
    leaves the event as it was. *)
Theorem C1_enabled_reporter_stamps_event (r : Reporter) (now : Timestamp)
  (event : TelemetryEvent) :
  reachable r ->
  let event' := snd (fst (ReportEvent now event r)) in
  (enabled r = true ->
   SessionId event' <> ""%string /\ Timestamp_ event' = Some now /\
   Tags event' = Tags event ++ tags r) /\
  (enabled r = false -> event' = event).
Proof.
  intros [_ _ _ Hlen _]%reachable_sound. unfold ReportEvent. split; intros ->; simpl; [|done].
  assert (SessionId (stamp r now event) <> ""%string) as Hsid.
  { simpl. destruct (String.eqb (SessionId event) "") eqn:Heq.
    - by eapply string_length_nonempty.
    - by apply String.eqb_neq. }
  destruct (shuttingDown r); [done|].
  by destruct (TryGo _ _).
Qed.

Lemma C1_enabled_reporter_stamps_event_witness :
  let event' :=
    snd (fst (ReportEvent Sample.now Sample.blank Sample.active)) in
  SessionId event' <> ""%string /\ Timestamp_ event' = Some Sample.now /\
  Tags event' = ["web"%string; "cli"%string].
Proof.
  exact (proj1 (C1_enabled_reporter_stamps_event Sample.active Sample.now
                  Sample.blank sample_active_reachable) eq_refl).
Defined.

(** C1, as stated, fails on a disabled reporter: the event keeps its empty
    session id, gets no timestamp and no reporter tag. *)
Lemma C1_counterexample :
  snd (NewReporter Sample.host_optout false Sample.conf) = Ok Sample.disabled /\
  let event' :=
    snd (fst (ReportEvent Sample.now Sample.blank Sample.disabled)) in
  SessionId event' = ""%string /\ Timestamp_ event' = None /\
  Tags event' <> Tags Sample.blank ++ tags Sample.disabled.
Proof. vm_compute. repeat split; discriminate. Qed.

(** ** C2 *)

(** C2: a failed send is swallowed by the task, which returns nil; but
    besides the debug message the task writes a line to standard output. *)
Theorem C2_failed_send_writes_to_stdout (r : Reporter)
  (event : TelemetryEvent) (e : error) :
  run_task r (ReportTask event) (Some e) =
  ([Report (Some 30) (build_request (authToken r) event);
    Stdout (fmt_Println "Failed to report event" (error_Error e));
    Log Debug "Failed to report event"],
   None).
Proof. reflexivity. Qed.

(** The synchronous reporter only logs at debug level on the same failure. *)
Lemma Legacy_failed_send_logs_only (lr : Legacy.Reporter) (now : Timestamp)
  (event : TelemetryEvent) (e : error) :
  Legacy.enabled lr = true ->
  exists req,
    snd (Legacy.ReportEvent now (Some e) event lr) =
    [Report None req; Log Debug "Failed to report event"].
Proof. unfold Legacy.ReportEvent. intros ->. simpl. eauto. Qed.

(** ** C3 *)

(** C3, as the code has it: with sixteen tasks in flight the non-blocking
    dispatch answers false where a blocking one would park; an enabled
    reporter that is not shutting down then drops the event with a warning,
    and one that is shutting down has dropped it before, with a debug
    message; in both cases the group is left as it was. *)
Theorem C3_full_group_sheds_load (r : Reporter) (now : Timestamp)
  (event : TelemetryEvent) :
  reachable r -> enabled r = true ->
  length (running (reports r)) = Z.to_nat maxConcurrentReports ->
  let t := ReportTask (stamp r now event) in
  Go t (reports r) = Blocked /\
  TryGo t (reports r) = (reports r, false) /\
  (shuttingDown r = false ->
   ReportEvent now event r =
   (r, stamp r now event,
    [Log Warn "Too many in-flight telemetry reports, dropping event"])) /\
  (shuttingDown r = true ->
   ReportEvent now event r =
   (r, stamp r now event, [Log Debug "Shutting down, dropping event"])).
Proof.
  intros [_ Hlim _ _ _]%reachable_sound Hen Hfull t.
  assert (has_slot (reports r) = false) as Hslot.
  { unfold has_slot. rewrite Hlim, Hfull. reflexivity. }
  unfold Go, TryGo. rewrite Hslot. repeat split.
  - intros Hsd. unfold ReportEvent, TryGo. rewrite Hen, Hsd, Hslot. simpl.
    by rewrite with_reports_same.
  - by apply ReportEvent_shutting_down.
Qed.

Lemma C3_full_group_sheds_load_witness :
  ReportEvent Sample.now Sample.blank Sample.full =
  (Sample.full, stamp Sample.full Sample.now Sample.blank,
   [Log Warn "Too many in-flight telemetry reports, dropping event"]).
Proof.
  refine (proj1 (proj2 (proj2 (C3_full_group_sheds_load Sample.full Sample.now
            Sample.blank sample_full_reachable _ _))) _); vm_compute; reflexivity.
Defined.

(** C3, as stated, fails once [Shutdown] has stored its flag: the full group
    is not even tried, and the message is at debug level. *)
Lemma C3_counterexample :
  enabled Sample.full_shutting = true /\
  length (running (reports Sample.full_shutting)) = 16%nat /\
  snd (ReportEvent Sample.now Sample.blank Sample.full_shutting) =
  [Log Debug "Shutting down, dropping event"] /\
  ~ In (Log Warn "Too many in-flight telemetry reports, dropping event")
       (snd (ReportEvent Sample.now Sample.blank Sample.full_shutting)).
Proof.
  vm_compute. repeat split. intros [H|[]]. discriminate.
Qed.

(** ** C4 *)

(** C4: [Shutdown] sets the flag; along any run the flag never goes back to
    false and goes from false to true at most once; and once it is set, an
    enabled reporter drops every event without touching the group. *)
Theorem C4_shutting_down_is_final (r : Reporter) (timeline : list tick)
  (acts : list action) (now : Timestamp) (event : TelemetryEvent) :
  shuttingDown (snd (fst (Shutdown timeline r))) = true /\
  falls (flag_history acts r) = O /\
  (rises (flag_history acts r) <= 1)%nat /\
  (shuttingDown r = true ->
   let r' := fst (run acts r) in
   shuttingDown r' = true /\
   (enabled r' = true ->
    ReportEvent now event r' =
    (r', stamp r' now event, [Log Debug "Shutting down, dropping event"]))).
Proof.
  split; [|split; [|split]].
  - unfold Shutdown.
    by apply (ev_flag _ _ (evolves_Shutdown_select timeline (store_shuttingDown r))).
  - apply flag_history_monotone.
  - destruct (flag_history_monotone acts r) as [_ H].
    destruct (shuttingDown r); lia.
  - intros Hsd r'.
    assert (shuttingDown r' = true) as Hsd'
      by by apply (ev_flag _ _ (evolves_run acts r)).
    split; [done|]. intros Hen. by apply ReportEvent_shutting_down.
Qed.

Lemma C4_shutting_down_is_final_witness :
  let r := snd (fst (Shutdown [] Sample.active)) in
  let r' := fst (run [CallReportEvent Sample.now Sample.blank;
                      CallClose [(0%nat, None)]] r) in
  shuttingDown r' = true /\
  ReportEvent Sample.now Sample.with_session r' =
  (r', stamp r' Sample.now Sample.with_session,
   [Log Debug "Shutting down, dropping event"]).
Proof.
  intros r r'.
  destruct (C4_shutting_down_is_final r []
              [CallReportEvent Sample.now Sample.blank;
               CallClose [(0%nat, None)]]
              Sample.now Sample.with_session) as (_ & _ & _ & H).
  destruct H as [H1 H2]; [vm_compute; reflexivity|].
  split; [exact H1|]. apply H2. vm_compute; reflexivity.
Defined.

(** ** C5 *)

(** What [Close] and [Shutdown] return, from the error the group held when
    they were called. *)
Lemma shutdown_paths_result (r : Reporter) (sched : list completion)
  (timeline : list tick) (res : option error) :
  fst (fst (Close sched r)) = Returns res \/
  fst (fst (Shutdown timeline r)) = Returns res ->
  match err (reports r) with
  | Some e => res = unless_canceled (Some e)
  | None => res = None
  end.
Proof.
  intros H.
  assert (exists r', evolves r r' /\ res = unless_canceled (err (reports r')))
    as (r' & Hev & ->).
  { destruct H as [H|H].
    - pose proof (evolves_Close sched r) as Hev.
      destruct (Close sched r) as [[res' r'] effs] eqn:HC; simpl in *. subst res'.
      apply Close_result in HC as [-> _]. eauto.
    - pose proof (evolves_Shutdown timeline r) as Hev. unfold Shutdown in *.
      destruct (Shutdown_select timeline _) as [[res' r'] effs] eqn:HS;
        simpl in *. subst res'.
      apply Shutdown_select_result in HS as ->. eauto. }
  destruct (err (reports r)) as [e|] eqn:He.
  - by rewrite (ev_err _ _ Hev e He).
  - apply unless_canceled_None, (ev_benign _ _ Hev). by left.
Qed.

(** C5: whenever [Close] or [Shutdown] returns, an error held by the group
    comes out unchanged unless it is a cancellation (anywhere in its chain),
    in which case nil comes out; and with no error held, nil comes out, the
    tasks adding nothing but the cancellation sentinel. *)
Theorem C5_cancellation_is_success (r : Reporter) (sched : list completion)
  (timeline : list tick) (res : option error) :
  fst (fst (Close sched r)) = Returns res \/
  fst (fst (Shutdown timeline r)) = Returns res ->
  match err (reports r) with
  | Some e => res = if errors_Is e context_Canceled then None else Some e
  | None => res = None
  end.
Proof. apply shutdown_paths_result. Qed.

Lemma C5_cancellation_is_success_witness :
  fst (fst (Close [(0%nat, None); (1%nat, None)] Sample.failed))
  = Returns (Some (ErrMsg "boom")) /\
  match err (reports Sample.failed) with
  | Some e => Some (ErrMsg "boom")
              = if errors_Is e context_Canceled then None else Some e
  | None => Some (ErrMsg "boom") = None
  end.
Proof.
  assert (fst (fst (Close [(0%nat, None); (1%nat, None)] Sample.failed))
          = Returns (Some (ErrMsg "boom"))) as H by (vm_compute; reflexivity).
  split; [exact H|].
  exact (C5_cancellation_is_success Sample.failed _ [] _ (or_introl H)).
Defined.

(** ** C6 *)

(** C6: [NewReporter] reads the opt-out variable once and nothing reads the
    environment afterwards; the flag it stores is kept by every operation;
    and where construction succeeds it also succeeds with the variable set
    to a non-empty value, giving a reporter that stays disabled. *)
Theorem C6_opt_out_read_once (h : Host) (parentDone : bool)
  (conf : Configuration) (r0 : Reporter) (acts : list action)
  (value : string) :
  count_Getenv (fst (NewReporter h parentDone conf)) = 1%nat /\
  In (Getenv telemetryOptOutEnvVar) (fst (NewReporter h parentDone conf)) /\
  (snd (NewReporter h parentDone conf) = Ok r0 ->
   enabled r0 = String.eqb (os_Getenv h telemetryOptOutEnvVar) "" /\
   enabled (fst (run acts r0)) = enabled r0 /\
   quiet (snd (run acts r0)) /\
   (value <> ""%string ->
    exists r1,
      snd (NewReporter (setenv telemetryOptOutEnvVar value h) parentDone conf)
      = Ok r1 /\
      enabled r1 = false /\ enabled (fst (run acts r1)) = false)).
Proof.
  rewrite NewReporter_effects. split; [|split].
  - by destruct (String.eqb _ _).
  - by left.
  - intros Hnew. pose proof Hnew as (_ & _ & _ & Hen & _)%NewReporter_Ok.
    split; [done|]. split.
    { by destruct (evolves_run acts r0) as [(_ & _ & _ & _ & ?) _ _ _ _ _]. }
    split; [eapply eff_ok_quiet, eff_ok_run|].
    intros Hv. destruct (NewReporter_setenv h parentDone conf r0 value Hnew)
      as (r1 & Hnew1 & Hen1).
    apply String.eqb_neq in Hv. rewrite Hv in Hen1.
    exists r1. split; [done|]. split; [done|].
    destruct (evolves_run acts r1) as [(_ & _ & _ & _ & ?) _ _ _ _ _].
    congruence.
Qed.

Lemma C6_opt_out_read_once_witness :
  exists r1,
    snd (NewReporter Sample.host_optout false Sample.conf) = Ok r1 /\
    enabled r1 = false /\
    enabled (fst (run Sample.sixteen r1)) = false.
Proof.
  destruct (C6_opt_out_read_once Sample.host false Sample.conf Sample.active
              Sample.sixteen "1") as (_ & _ & H).
  destruct H as (_ & _ & _ & H); [vm_compute; reflexivity|].
  apply H. discriminate.
Defined.

(** ** C7 *)

(** C7: on an enabled reporter an empty session id becomes the reporter's,
    and a non-empty one is kept. *)
Theorem C7_session_id_defaulting (r : Reporter) (now : Timestamp)
  (event : TelemetryEvent) :
  enabled r = true ->
  let event' := snd (fst (ReportEvent now event r)) in
  (SessionId event = ""%string -> SessionId event' = sessionID r) /\
  (SessionId event <> ""%string -> SessionId event' = SessionId event).
Proof.
  intros Hen. unfold ReportEvent. rewrite Hen. simpl.
  assert (SessionId (stamp r now event) =
          if String.eqb (SessionId event) "" then sessionID r
          else SessionId event) as Hs by reflexivity.
  assert (snd (fst (if shuttingDown r
                    then (r, stamp r now event,
                          [Log Debug "Shutting down, dropping event"])
                    else let '(g, started) :=
                           TryGo (ReportTask (stamp r now event)) (reports r) in
                         (with_reports g r, stamp r now event,
                          if negb started
                          then [Log Warn "Too many in-flight telemetry reports, dropping event"]
                          else []))) = stamp r now event) as ->.
  { destruct (shuttingDown r); [done|]. by destruct (TryGo _ _). }
  rewrite Hs. split.
  - by intros ->.
  - intros Hne%String.eqb_neq. by rewrite Hne.
Qed.

Lemma C7_session_id_defaulting_witness :
  SessionId (snd (fst (ReportEvent Sample.now Sample.blank Sample.active)))
  = "dkryFMT07elszGNU"%string /\
  SessionId (snd (fst (ReportEvent Sample.now Sample.with_session Sample.active)))
  = "caller"%string.
Proof.
  split.
  - apply (proj1 (C7_session_id_defaulting Sample.active Sample.now
                    Sample.blank eq_refl)). reflexivity.
  - apply (proj2 (C7_session_id_defaulting Sample.active Sample.now
                    Sample.with_session eq_refl)). discriminate.
Defined.

(** ** C8 *)

(** C8: the alphabet has 62 distinct symbols, exactly the ASCII letters and
    digits; the session id of every constructed reporter has 16 characters
    of it; and [GenerateID n], for [n >= 0] and a reader that delivers [n]
    draws, returns a string of [n] characters of it. *)
Theorem C8_session_id_shape (h : Host) (parentDone : bool)
  (conf : Configuration) (r : Reporter) (rd : Reader) (n : Z) :
  (String.length letters = 62%nat /\
   NoDup (list_ascii_of_string letters) /\
   forall c, in_letters c <-> is_alnum c = true) /\
  (snd (NewReporter h parentDone conf) = Ok r ->
   String.length (sessionID r) = 16%nat /\
   Forall in_letters (list_ascii_of_string (sessionID r))) /\
  (0 <= n -> (forall i, (i < Z.to_nat n)%nat -> is_Some (rd i)) ->
   exists s, GenerateID rd n = Ok s /\
             String.length s = Z.to_nat n /\
             Forall in_letters (list_ascii_of_string s)).
Proof.
  split; [|split].
  - split; [reflexivity|]. split; [apply letters_NoDup|apply letters_alnum].
  - intros (Hid & _)%NewReporter_Ok.
    by apply GenerateID_sound in Hid as (_ & ? & ?).
  - intros Hn Hrd. destruct (GenerateID_total rd n Hn Hrd) as [s Hs].
    exists s. split; [done|]. by apply GenerateID_sound in Hs as (_ & ? & ?).
Qed.

Lemma C8_session_id_shape_witness :
  (String.length (sessionID Sample.active) = 16%nat /\
   Forall in_letters (list_ascii_of_string (sessionID Sample.active))) /\
  exists s, GenerateID Sample.reader 5 = Ok s /\
            String.length s = 5%nat /\
            Forall in_letters (list_ascii_of_string s).
Proof.
  destruct (C8_session_id_shape Sample.host false Sample.conf Sample.active
              Sample.reader 5) as (_ & H1 & H2).
  split.
  - apply H1. vm_compute; reflexivity.
  - apply H2; [lia|]. intros i _. unfold Sample.reader. eauto.
Defined.

(** ** C9 *)

(** C9: every request sent during any run of a reporter, and the request of
    every report task, has [Authorization: Bearer <token>] when the token is
    non-empty and no [Authorization] header when it is empty; the same holds
    of the synchronous reporter. *)
Theorem C9_bearer_header (r : Reporter) (acts : list action)
  (lr : Legacy.Reporter) (now : Timestamp) (resp : option error)
  (event : TelemetryEvent) (req : Request) :
  requests (fst (run_task r (ReportTask event) resp)) =
    [build_request (authToken r) event] /\
  (In req (requests (snd (run acts r))) \/
   In req (requests (fst (run_task r (ReportTask event) resp))) ->
   header req !! "Authorization"%string =
   if String.eqb (authToken r) "" then None
   else Some ["Bearer " +:+ authToken r]) /\
  (In req (requests (snd (Legacy.ReportEvent now resp event lr))) ->
   header req !! "Authorization"%string =
   if String.eqb (Legacy.authToken lr) "" then None
   else Some ["Bearer " +:+ Legacy.authToken lr]).
Proof.
  split; [by destruct resp|]. split.
  - intros [H|H].
    + by apply (eff_ok_requests _ _ _ (eff_ok_run acts r)).
    + by apply (eff_ok_requests _ _ _ (eff_ok_run_task r (ReportTask event) resp)).
  - unfold Legacy.ReportEvent. destruct (Legacy.enabled lr); simpl; [|done].
    destruct resp; simpl; (intros [<-|[]]; apply build_request_carries_auth).
Qed.

Lemma C9_bearer_header_witness :
  let acts := [CallReportEvent Sample.now Sample.blank; TaskEnds 0 None] in
  exists req,
    requests (snd (run acts Sample.active)) = [req] /\
    header req !! "Authorization"%string = Some ["Bearer s3cret"%string].
Proof.
  intros acts.
  exists (build_request "s3cret" (stamp Sample.active Sample.now Sample.blank)).
  assert (requests (snd (run acts Sample.active)) =
          [build_request "s3cret" (stamp Sample.active Sample.now Sample.blank)])
    as Hreq by (vm_compute; reflexivity).
  split; [exact Hreq|].
  apply (proj1 (proj2 (C9_bearer_header Sample.active acts Sample.legacy
                         Sample.now None Sample.blank _))).
  left. rewrite Hreq. left. reflexivity.
Defined.

(** ** C10 *)

(** C10: a report task returns nil whatever the send did, and a task returns
    either nil or, for the task of [Close], the cancellation sentinel; so
    the group of a reporter in use keeps no other error, [Close] returns nil
    whenever it returns, and it does return once the tasks in flight have
    ended, and [Shutdown] returns nil whenever it returns, by either branch
    of its select. *)
Theorem C10_shutdown_paths_return_nil (r : Reporter) (t : task)
  (event : TelemetryEvent) (resp : option error) (sched : list completion)
  (timeline : list tick) (res : option error) :
  snd (run_task r (ReportTask event) resp) = None /\
  (snd (run_task r t resp) = None \/
   t = CancelTask /\ snd (run_task r t resp) = Some context_Canceled) /\
  (reachable r ->
   benign (reports r) /\
   (fst (fst (Close sched r)) = Returns res -> res = None) /\
   ((length (running (reports r)) < length sched)%nat ->
    fst (fst (Close sched r)) = Returns None) /\
   (fst (fst (Shutdown timeline r)) = Returns res -> res = None) /\
   ((length (running (reports r)) < length (completions timeline))%nat ->
    fst (fst (Shutdown timeline r)) = Returns None)).
Proof.
  split; [done|]. split; [destruct t; auto|].
  intros [Hb Hlim _ _ _]%reachable_sound.
  assert (forall res', fst (fst (Close sched r)) = Returns res' -> res' = None)
    as HC.
  { intros res' H.
    pose proof (shutdown_paths_result r sched [] res' (or_introl H)) as H5.
    by destruct Hb as [Hb|Hb]; rewrite Hb in H5. }
  assert (forall res', fst (fst (Shutdown timeline r)) = Returns res' ->
                       res' = None) as HS.
  { intros res' H.
    pose proof (shutdown_paths_result r [] timeline res' (or_intror H)) as H5.
    by destruct Hb as [Hb|Hb]; rewrite Hb in H5. }
  split; [done|]. split; [apply HC|]. split; [|split; [apply HS|]].
  - intros Hlen.
    destruct (Close_total sched r 16 Hlim ltac:(lia) Hlen) as (res' & r' & effs & H).
    rewrite H. simpl. f_equal. apply HC. by rewrite H.
  - intros Hlen.
    destruct (Shutdown_select_total timeline 16 ltac:(lia) (store_shuttingDown r)
                Hlim Hlen) as (res' & r' & effs & H).
    unfold Shutdown in *. rewrite H. simpl. f_equal. apply HS. by rewrite H.
Qed.

Lemma C10_shutdown_paths_return_nil_witness :
  reachable Sample.full /\
  fst (fst (Close (repeat (0%nat, Some context_DeadlineExceeded) 17)
              Sample.full)) = Returns None /\
  fst (fst (Shutdown (Deadline :: repeat (Completes 3 None) 17)
              Sample.full)) = Returns None.
Proof.
  split; [exact sample_full_reachable|].
  destruct (C10_shutdown_paths_return_nil Sample.full CancelTask Sample.blank
              None (repeat (0%nat, Some context_DeadlineExceeded) 17)
              (Deadline :: repeat (Completes 3 None) 17) None)
    as (_ & _ & H).
  destruct (H sample_full_reachable) as (_ & _ & HC & _ & HS).
  split; [apply HC|apply HS]; vm_compute; lia.
Defined.

(** * Further properties *)

(** ** Every report is sent once *)

Lemma pending_app (token : string) (l1 l2 : list task) :
  pending token (l1 ++ l2) = pending token l1 ++ pending token l2.
Proof.
  induction l1 as [|[event|] l1 IH]; simpl; [done| |done].
  by rewrite IH.
Qed.

Lemma pending_Permutation (token : string) (l1 l2 : list task) :
  l1 ≡ₚ l2 -> pending token l1 ≡ₚ pending token l2.
Proof.
  induction 1 as [|t l1 l2 _ IH|t1 t2 l|l1 l2 l3 _ IH1 _ IH2]; simpl.
  - done.
  - destruct t; [by constructor|done].
  - destruct t1, t2; try done. apply perm_swap.
  - by etrans.
Qed.

Lemma requests_app (e1 e2 : list effect) :
  requests (e1 ++ e2) = requests e1 ++ requests e2.
Proof.
  induction e1 as [|[] e1 IH]; simpl; try done. by rewrite IH.
Qed.

Lemma requests_run_task (r : Reporter) (t : task) (resp : option error) :
  requests (fst (run_task r t resp)) = pending (authToken r) [t].
Proof. destruct t; simpl; [by destruct resp|done]. Qed.

Lemma conserves_refl (r : Reporter) : conserves r r [].
Proof. unfold conserves. done. Qed.

Lemma conserves_trans (r1 r2 r3 : Reporter) (e1 e2 : list effect) :
  authToken r2 = authToken r1 ->
  conserves r1 r2 e1 -> conserves r2 r3 e2 -> conserves r1 r3 (e1 ++ e2).
Proof.
  unfold conserves. intros -> H1 H2.
  rewrite requests_app, <- H1, <- H2. by rewrite (assoc_L (++)).
Qed.

Lemma conserves_finish (pick : nat) (resp : option error) (r : Reporter) :
  conserves r (fst (finish pick resp r)) (snd (finish pick resp r)).
Proof.
  unfold finish.
  destruct (running (reports r) !! _) as [t|] eqn:Ht; [|apply conserves_refl].
  pose proof (requests_run_task r t resp) as Hreq.
  destruct (run_task r t resp) as [effs res]. unfold conserves. simpl in *.
  rewrite Hreq.
  rewrite (pending_Permutation _ _ _ (delete_Permutation _ _ _ Ht)).
  change (t :: delete _ _) with ([t] ++ delete (pick mod length (running (reports r)))%nat (running (reports r))).
  by rewrite pending_app.
Qed.

Lemma conserves_settle (ready : Group -> bool) (sched : list completion) :
  forall r,
    conserves r (fst (fst (settle ready sched r))) (snd (settle ready sched r)).
Proof.
  induction sched as [|[pick resp] rest IH]; intros r; simpl;
    destruct (ready (reports r)); try apply conserves_refl.
  pose proof (conserves_finish pick resp r) as H1.
  pose proof (evolves_authToken _ _ (evolves_finish pick resp r)) as Ht.
  destruct (finish pick resp r) as [r1 e1]; simpl in *.
  specialize (IH r1). destruct (settle ready rest r1) as [[r2 rest'] e2].
  simpl in *. by eapply conserves_trans.
Qed.

Lemma conserves_spawn_cancel (r : Reporter) :
  conserves r (with_reports (spawn CancelTask (reports r)) r) [].
Proof.
  unfold conserves. simpl. rewrite pending_app. simpl. by rewrite (right_id_L [] (++)).
Qed.

Lemma conserves_wait (r : Reporter) (g : Group) (werr : option error) :
  Wait (reports r) = Returns (g, werr) -> conserves r (with_reports g r) [].
Proof.
  unfold Wait. destruct (drained (reports r)); [|discriminate].
  intros [= <- _]. by unfold conserves.
Qed.

Lemma conserves_Close (sched : list completion) (r : Reporter) :
  conserves r (snd (fst (Close sched r))) (snd (Close sched r)).
Proof.
  unfold Close.
  pose proof (conserves_settle has_slot sched r) as H1.
  pose proof (evolves_authToken _ _ (evolves_settle has_slot sched r)) as Ht.
  destruct (settle has_slot sched r) as [[r1 sched1] e1]; simpl in *.
  unfold Go. destruct (has_slot (reports r1)); [|done].
  pose proof (conserves_settle drained sched1
                (with_reports (spawn CancelTask (reports r1)) r1)) as H2.
  pose proof (evolves_authToken _ _ (evolves_settle drained sched1
                (with_reports (spawn CancelTask (reports r1)) r1))) as Ht2.
  destruct (settle drained sched1 _) as [[r2 rest] e2]; simpl in *.
  assert (conserves r r2 (e1 ++ e2)) as H3.
  { eapply conserves_trans; [exact Ht|exact H1|].
    exact (conserves_trans r1 (with_reports (spawn CancelTask (reports r1)) r1)
             r2 [] e2 eq_refl (conserves_spawn_cancel r1) H2). }
  destruct (Wait (reports r2)) as [[g3 werr]|] eqn:Hw; [|done].
  simpl. apply conserves_wait in Hw.
  pose proof (conserves_trans r r2 _ _ [] (eq_trans Ht2 Ht) H3 Hw) as H.
  by rewrite (right_id_L [] (++)) in H.
Qed.

Lemma conserves_Shutdown_select (timeline : list tick) :
  forall r,
    conserves r (snd (fst (Shutdown_select timeline r)))
              (snd (Shutdown_select timeline r)).
Proof.
  induction timeline as [|[pick resp|] rest IH]; intros r; simpl.
  - destruct (Wait (reports r)) as [[g werr]|] eqn:Hw; [|apply conserves_refl].
    by apply conserves_wait in Hw.
  - destruct (Wait (reports r)) as [[g werr]|] eqn:Hw.
    { by apply conserves_wait in Hw. }
    pose proof (conserves_finish pick resp r) as H1.
    pose proof (evolves_authToken _ _ (evolves_finish pick resp r)) as Ht.
    destruct (finish pick resp r) as [r1 e1]; simpl in *.
    specialize (IH r1). destruct (Shutdown_select rest r1) as [[res r2] e2].
    simpl in *. by eapply conserves_trans.
  - apply conserves_Close.
Qed.

(** [ReportEvent] sends nothing itself; it adds its request to the pending
    ones exactly when it accepts the event. *)
Lemma ReportEvent_pending (now : Timestamp) (event : TelemetryEvent)
  (r : Reporter) :
  requests (snd (ReportEvent now event r)) = [] /\
  pending (authToken r) (running (reports (fst (fst (ReportEvent now event r)))))
  = pending (authToken r) (running (reports r)) ++
    accepted [CallReportEvent now event] r.
Proof.
  unfold ReportEvent, TryGo. cbn [accepted]. unfold accepts.
  destruct (enabled r), (shuttingDown r), (has_slot (reports r)); simpl;
    rewrite ?pending_app, ?app_nil_r; done.
Qed.

Lemma step_conserves (a : action) (r : Reporter) :
  requests (snd (step a r)) ++
  pending (authToken r) (running (reports (fst (step a r))))
  ≡ₚ pending (authToken r) (running (reports r)) ++ accepted [a] r.
Proof.
  assert (forall r' effs, conserves r r' effs ->
            requests effs ++ pending (authToken r) (running (reports r'))
            ≡ₚ pending (authToken r) (running (reports r)) ++ []) as Hc.
  { intros r' effs H. by rewrite (right_id_L [] (++)). }
  destruct a as [now event|pick resp|timeline|sched| |]; simpl.
  - destruct (ReportEvent_pending now event r) as [H1 H2].
    destruct (ReportEvent now event r) as [[r' ev'] effs]; simpl in *.
    by rewrite H1, H2.
  - apply Hc, conserves_finish.
  - pose proof (conserves_Shutdown_select timeline (store_shuttingDown r)) as H.
    unfold Shutdown.
    destruct (Shutdown_select timeline _) as [[res r'] effs]. by apply Hc.
  - pose proof (conserves_Close sched r) as H.
    destruct (Close sched r) as [[res r'] effs]. by apply Hc.
  - by rewrite app_nil_r.
  - unfold Go. destruct (has_slot (reports r)); simpl.
    + exact (Hc _ [] (conserves_spawn_cancel r)).
    + by rewrite app_nil_r.
Qed.

Lemma run_conserves (acts : list action) :
  forall r,
    requests (snd (run acts r)) ++
    pending (authToken r) (running (reports (fst (run acts r))))
    ≡ₚ pending (authToken r) (running (reports r)) ++ accepted acts r.
Proof.
  induction acts as [|a rest IH]; intros r.
  - simpl. by rewrite (right_id_L [] (++)).
  - pose proof (step_conserves a r) as H1.
    pose proof (evolves_authToken _ _ (evolves_step a r)) as Ht.
    cbn [run accepted]. cbn [accepted] in H1.
    rewrite (right_id_L [] (++)) in H1.
    destruct (step a r) as [r1 e1]; simpl in *.
    specialize (IH r1). rewrite Ht in IH.
    destruct (run rest r1) as [r2 e2]; simpl in *.
    rewrite requests_app, <- (assoc_L (++)), IH, !(assoc_L (++)).
    by rewrite H1.
Qed.

(** ** Who writes the flag *)

Lemma finish_flag (pick : nat) (resp : option error) (r : Reporter) :
  shuttingDown (fst (finish pick resp r)) = shuttingDown r.
Proof.
  unfold finish. destruct (running (reports r) !! _) as [t|]; [|done].
  by destruct (run_task r t resp).
Qed.

Lemma settle_flag (ready : Group -> bool) (sched : list completion) :
  forall r, shuttingDown (fst (fst (settle ready sched r))) = shuttingDown r.
Proof.
  induction sched as [|[pick resp] rest IH]; intros r; simpl;
    destruct (ready (reports r)); try done.
  pose proof (finish_flag pick resp r) as H1.
  destruct (finish pick resp r) as [r1 e1]; simpl in *.
  specialize (IH r1). destruct (settle ready rest r1) as [[r2 rest'] e2].
  simpl in *. congruence.
Qed.

Lemma Close_flag (sched : list completion) (r : Reporter) :
  shuttingDown (snd (fst (Close sched r))) = shuttingDown r.
Proof.
  unfold Close.
  pose proof (settle_flag has_slot sched r) as H1.
  destruct (settle has_slot sched r) as [[r1 sched1] e1]; simpl in *.
  unfold Go. destruct (has_slot (reports r1)); [|done].
  pose proof (settle_flag drained sched1
                (with_reports (spawn CancelTask (reports r1)) r1)) as H2.
  destruct (settle drained sched1 _) as [[r2 rest] e2]; simpl in *.
  destruct (Wait (reports r2)) as [[g3 werr]|]; simpl; congruence.
Qed.

(** ** The task of [Close] leaves its mark *)

Lemma elem_of_delete_other {A} (l : list A) (i : nat) (x t : A) :
  l !! i = Some t -> x ∈ l -> x <> t -> x ∈ delete i l.
Proof.
  intros Hi Hx Hne. rewrite (delete_Permutation l i t Hi) in Hx.
  apply elem_of_cons in Hx as [?|?]; done.
Qed.

Lemma cancel_seen_finish (pick : nat) (resp : option error) (r : Reporter) :
  cancel_seen (reports r) -> cancel_seen (reports (fst (finish pick resp r))).
Proof.
  unfold finish. destruct (running (reports r) !! _) as [t|] eqn:Ht; [|done].
  destruct t as [event|]; simpl; unfold cancel_seen; simpl.
  - intros [Hin|Herr].
    + left. by eapply elem_of_delete_other.
    + right. by destruct (err (reports r)).
  - intros _. right. by destruct (err (reports r)).
Qed.

Lemma cancel_seen_settle (ready : Group -> bool) (sched : list completion) :
  forall r, cancel_seen (reports r) ->
            cancel_seen (reports (fst (fst (settle ready sched r)))).
Proof.
  induction sched as [|[pick resp] rest IH]; intros r Hr; simpl;
    destruct (ready (reports r)); try done.
  pose proof (cancel_seen_finish pick resp r Hr) as H1.
  destruct (finish pick resp r) as [r1 e1]; simpl in *.
  specialize (IH r1 H1). by destruct (settle ready rest r1) as [[r2 rest'] e2].
Qed.

(** The group as [Close] leaves it when it returns. *)
Lemma Close_leaves (sched : list completion) (r r' : Reporter)
  (res : option error) (effs : list effect) :
  Close sched r = (Returns res, r', effs) ->
  running (reports r') = [] /\ ctxDone (reports r') = true /\
  err (reports r') <> None.
Proof.
  unfold Close. destruct (settle has_slot sched r) as [[r1 sched1] e1].
  unfold Go. destruct (has_slot (reports r1)); [|discriminate].
  pose proof (cancel_seen_settle drained sched1
                (with_reports (spawn CancelTask (reports r1)) r1)) as Hseen.
  destruct (settle drained sched1 _) as [[r2 rest] e2]; simpl in Hseen.
  destruct (Wait (reports r2)) as [[g3 werr]|] eqn:Hw; [|discriminate].
  intros [= _ <- _]. simpl.
  unfold Wait, drained in Hw.
  destruct (running (reports r2)) eqn:Hrun; [|discriminate].
  injection Hw as <- _. simpl. split; [done|]. split; [done|].
  destruct Hseen as [Hin|Herr]; [| |done].
  - left. simpl. apply elem_of_app. right. apply elem_of_cons. by left.
  - rewrite Hrun in Hin. by apply elem_of_nil in Hin.
Qed.

Lemma Shutdown_select_leaves (timeline : list tick) :
  forall (r r' : Reporter) (res : option error) (effs : list effect),
    Shutdown_select timeline r = (Returns res, r', effs) ->
    running (reports r') = [] /\ ctxDone (reports r') = true.
Proof.
  assert (forall r g werr, Wait (reports r) = Returns (g, werr) ->
                           running g = [] /\ ctxDone g = true) as HW.
  { intros r g werr. unfold Wait, drained.
    destruct (running (reports r)) eqn:Hrun; [|discriminate].
    by intros [= <- _]. }
  induction timeline as [|[pick resp|] rest IH]; intros r r' res effs; simpl.
  - destruct (Wait (reports r)) as [[g werr]|] eqn:Hw; [|discriminate].
    intros [= _ <- _]. by eapply HW.
  - destruct (Wait (reports r)) as [[g werr]|] eqn:Hw.
    { intros [= _ <- _]. by eapply HW. }
    destruct (finish pick resp r) as [r1 e1].
    specialize (IH r1). destruct (Shutdown_select rest r1) as [[res2 r2] e2].
    intros [= -> <- _]. by eapply IH.
  - intros H. apply Close_leaves in H. tauto.
Qed.

(** ** What is emitted after construction *)

Lemma late_run_task (r : Reporter) (t : task) (resp : option error) :
  Forall late_effect (fst (run_task r t resp)).
Proof.
  destruct t as [event|]; simpl; [|constructor].
  constructor; [done|]. destruct resp; repeat constructor; done.
Qed.

Lemma late_finish (pick : nat) (resp : option error) (r : Reporter) :
  Forall late_effect (snd (finish pick resp r)).
Proof.
  unfold finish. destruct (running (reports r) !! _) as [t|]; [|constructor].
  pose proof (late_run_task r t resp) as H.
  by destruct (run_task r t resp).
Qed.

Lemma late_settle (ready : Group -> bool) (sched : list completion) :
  forall r, Forall late_effect (snd (settle ready sched r)).
Proof.
  induction sched as [|[pick resp] rest IH]; intros r; simpl;
    destruct (ready (reports r)); try constructor.
  pose proof (late_finish pick resp r) as H1.
  destruct (finish pick resp r) as [r1 e1]; simpl in *.
  specialize (IH r1). destruct (settle ready rest r1) as [[r2 rest'] e2].
  simpl in *. apply Forall_app. by split.
Qed.

Lemma late_Close (sched : list completion) (r : Reporter) :
  Forall late_effect (snd (Close sched r)).
Proof.
  unfold Close.
  pose proof (late_settle has_slot sched r) as H1.
  destruct (settle has_slot sched r) as [[r1 sched1] e1]; simpl in *.
  unfold Go. destruct (has_slot (reports r1)); [|done].
  pose proof (late_settle drained sched1
                (with_reports (spawn CancelTask (reports r1)) r1)) as H2.
  destruct (settle drained sched1 _) as [[r2 rest] e2]; simpl in H2.
  assert (Forall late_effect (e1 ++ e2)) by (apply Forall_app; done).
  by destruct (Wait (reports r2)) as [[g3 werr]|].
Qed.

Lemma late_Shutdown_select (timeline : list tick) :
  forall r, Forall late_effect (snd (Shutdown_select timeline r)).
Proof.
  induction timeline as [|[pick resp|] rest IH]; intros r; simpl.
  - destruct (Wait (reports r)) as [[g werr]|]; constructor.
  - destruct (Wait (reports r)) as [[g werr]|]; [constructor|].
    pose proof (late_finish pick resp r) as H1.
    destruct (finish pick resp r) as [r1 e1]; simpl in *.
    specialize (IH r1). destruct (Shutdown_select rest r1) as [[res r2] e2].
    simpl in *. apply Forall_app. by split.
  - apply late_Close.
Qed.

Lemma late_ReportEvent (now : Timestamp) (event : TelemetryEvent)
  (r : Reporter) : Forall late_effect (snd (ReportEvent now event r)).
Proof.
  unfold ReportEvent, TryGo.
  destruct (enabled r), (shuttingDown r), (has_slot (reports r)); simpl;
    repeat constructor; done.
Qed.

Lemma late_step (a : action) (r : Reporter) :
  Forall late_effect (snd (step a r)).
Proof.
  destruct a as [now event|pick resp|timeline|sched| |]; simpl.
  - pose proof (late_ReportEvent now event r) as H.
    by destruct (ReportEvent now event r) as [[r' ev'] effs].
  - apply late_finish.
  - pose proof (late_Shutdown_select timeline (store_shuttingDown r)) as H.
    unfold Shutdown.
    by destruct (Shutdown_select timeline _) as [[res r'] effs].
  - pose proof (late_Close sched r) as H.
    by destruct (Close sched r) as [[res r'] effs].
  - constructor.
  - unfold Go. destruct (has_slot (reports r)); constructor.
Qed.

Lemma late_run (acts : list action) :
  forall r, Forall late_effect (snd (run acts r)).
Proof.
  induction acts as [|a rest IH]; intros r; simpl; [constructor|].
  pose proof (late_step a r) as H1.
  destruct (step a r) as [r1 e1]; simpl in *.
  specialize (IH r1). destruct (run rest r1) as [r2 e2]; simpl in *.
  apply Forall_app. by split.
Qed.

(** ** More on GenerateID *)

Lemma string_get_list (l : list ascii) (i : nat) :
  String.get i (string_of_list_ascii l) = l !! i.
Proof.
  revert i; induction l as [|a l IH]; intros [|i]; simpl; auto.
Qed.

Lemma string_get_ge (s : string) (i : nat) :
  (String.length s <= i)%nat -> String.get i s = None.
Proof.
  revert i; induction s as [|a s IH]; intros [|i]; simpl; auto; try lia.
  intros H. apply IH. lia.
Qed.

(** Each index the loop visits holds the letter its own draw selects. *)
Lemma GenerateID_loop_content (rd : Reader) (k : nat) :
  forall (i : nat) (id id' : list ascii),
    GenerateID_loop rd k i id = Ok id' ->
    (i + k <= length id)%nat ->
    forall j, (i <= j < i + k)%nat ->
      exists v, rd j = Some v /\
                id' !! j = String.get (Z.to_nat (v mod 62)) letters.
Proof.
  induction k as [|k IH]; intros i id id' Hrun Hlen j Hj; [lia|].
  cbn [GenerateID_loop] in Hrun. unfold rand_Int in Hrun.
  destruct (rd i) as [v|] eqn:Hv; [|discriminate].
  change (Z.of_nat (String.length letters)) with 62 in Hrun.
  destruct (String.get (Z.to_nat (v mod 62)) letters) as [c|] eqn:Hc;
    [|discriminate].
  destruct (decide (j = i)) as [->|Hne].
  - exists v. split; [done|].
    apply GenerateID_loop_spec in Hrun as (_ & Hout & _);
      [|rewrite length_insert; lia].
    rewrite Hout by lia. rewrite Hc. apply list_lookup_insert_eq. lia.
  - eapply IH; [exact Hrun|rewrite length_insert; lia|lia].
Qed.

(** The loop panics only on a failed draw, and then with its error. *)
Lemma GenerateID_loop_Panic (rd : Reader) (k : nat) :
  forall (i : nat) (id : list ascii) (m : string),
    GenerateID_loop rd k i id = Panic m ->
    m = "crypto/rand: read failed"%string /\
    exists j, (i <= j < i + k)%nat /\ rd j = None.
Proof.
  induction k as [|k IH]; intros i id m Hrun; [discriminate|].
  cbn [GenerateID_loop] in Hrun. unfold rand_Int in Hrun.
  destruct (rd i) as [v|] eqn:Hv.
  - change (Z.of_nat (String.length letters)) with 62 in Hrun.
    destruct (string_get_lt letters (Z.to_nat (v mod 62))) as [c Hc].
    { rewrite letters_length.
      pose proof (Z.mod_pos_bound v 62 ltac:(lia)). lia. }
    rewrite Hc in Hrun. apply IH in Hrun as (-> & j & Hj & Hnone).
    split; [done|]. exists j. split; [lia|done].
  - injection Hrun as <-. split; [done|]. exists i. split; [lia|done].
Qed.

Lemma GenerateID_Ok_draws (rd : Reader) (n : Z) (s : string) :
  GenerateID rd n = Ok s ->
  forall i, (i < Z.to_nat n)%nat ->
    exists v, rd i = Some v /\
              String.get i s = String.get (Z.to_nat (v mod 62)) letters.
Proof.
  unfold GenerateID. destruct (n <? 0); [discriminate|].
  destruct (GenerateID_loop _ _ _ _) as [id|] eqn:Hrun; [|discriminate].
  intros [= <-] i Hi. rewrite string_get_list.
  eapply GenerateID_loop_content; [exact Hrun|rewrite length_replicate|]; lia.
Qed.

Lemma index_of_get (s : string) (c : ascii) :
  In c (list_ascii_of_string s) ->
  String.get (index_of c (list_ascii_of_string s)) s = Some c /\
  (index_of c (list_ascii_of_string s) < String.length s)%nat.
Proof.
  induction s as [|a s IH]; simpl; [done|].
  destruct (Ascii.eqb a c) eqn:Heq.
  - apply Ascii.eqb_eq in Heq as ->. split; [done|lia].
  - intros [->|Hin]; [by rewrite Ascii.eqb_refl in Heq|].
    destruct (IH Hin). split; [done|lia].
Qed.

Lemma Forall_in_get (P : ascii -> Prop) (s : string) (i : nat) (c : ascii) :
  Forall P (list_ascii_of_string s) -> String.get i s = Some c -> P c.
Proof.
  intros HP Hget. apply string_get_in in Hget.
  rewrite Forall_forall in HP. apply HP. by apply list_elem_of_In.
Qed.

(** ** More on construction *)

Lemma NewReporter_Panic_roots (h : Host) (parentDone : bool)
  (conf : Configuration) :
  HTTPClient conf = None -> rootsPEM_parsed h = None ->
  snd (NewReporter h parentDone conf) = Panic "failed to parse roots.pem".
Proof. unfold NewReporter. by intros -> ->. Qed.

Lemma NewReporter_client (h : Host) (parentDone : bool)
  (conf : Configuration) (r : Reporter) :
  snd (NewReporter h parentDone conf) = Ok r ->
  baseURL (client r) = BaseURL conf /\
  match HTTPClient conf with
  | Some c => httpClient (client r) = c
  | None => exists roots, rootsPEM_parsed h = Some roots /\
                          httpClient (client r) =
                          {| Timeout := 5; RootCAs := Some roots |}
  end.
Proof.
  unfold NewReporter.
  destruct (HTTPClient conf) as [c|]; [|destruct (rootsPEM_parsed h) as [roots|]];
    try discriminate;
    change (SetLimit maxConcurrentReports (errgroup_WithContext parentDone))
      with (Ok {| limit := Some 16%nat; running := []; err := None;
                  ctxDone := parentDone |});
    destruct (GenerateID (rand_Reader h) 16) as [sid|]; try discriminate;
    intros [= <-]; simpl; eauto.
Qed.

Lemma NewReporter_from_parts (h : Host) (parentDone : bool)
  (conf : Configuration) (sid : string) :
  HTTPClient conf <> None \/ rootsPEM_parsed h <> None ->
  GenerateID (rand_Reader h) 16 = Ok sid ->
  exists r, snd (NewReporter h parentDone conf) = Ok r.
Proof.
  unfold NewReporter. intros Hc ->.
  destruct (HTTPClient conf) as [c|]; [|destruct (rootsPEM_parsed h) as [roots|]];
    simpl; eauto.
  by destruct Hc.
Qed.

(** ** The legacy tags *)

Lemma has_web_tag_In (l : list string) :
  Legacy.has_web_tag l = true <-> In "web"%string l.
Proof.
  induction l as [|tag l IH]; simpl; [split; [discriminate|done]|].
  destruct (String.eqb tag "web") eqn:Heq.
  - apply String.eqb_eq in Heq. split; auto.
  - apply String.eqb_neq in Heq. rewrite IH. split; [auto|].
    by intros [?|?].
Qed.

Lemma has_web_tag_backend (l : list string) :
  Legacy.has_web_tag (l ++ ["backend"%string]) = Legacy.has_web_tag l.
Proof.
  induction l as [|tag l IH]; simpl; [done|]. by rewrite IH.
Qed.

(** ** Facts about runs *)

Lemma stamp_config (r r' : Reporter) (now : Timestamp)
  (event : TelemetryEvent) :
  same_config r r' -> stamp r' now event = stamp r now event.
Proof. intros (_ & _ & Hs & Ht & _). unfold stamp. by rewrite Hs, Ht. Qed.

Lemma ReportEvent_event (now : Timestamp) (event : TelemetryEvent)
  (r : Reporter) :
  enabled r = true ->
  snd (fst (ReportEvent now event r)) = stamp r now event.
Proof.
  unfold ReportEvent. intros ->. simpl.
  destruct (shuttingDown r); [done|]. by destruct (TryGo _ _).
Qed.

Lemma accepted_disabled (acts : list action) :
  forall r, enabled r = false -> accepted acts r = [].
Proof.
  induction acts as [|a rest IH]; intros r Hen; [done|].
  cbn [accepted]. rewrite IH.
  - destruct a; try done. unfold accepts. by rewrite Hen.
  - destruct (evolves_step a r) as [(_ & _ & _ & _ & ?) _ _ _ _ _]. congruence.
Qed.

Lemma step_flag (a : action) (r : Reporter) :
  is_shutdown a = false -> shuttingDown (fst (step a r)) = shuttingDown r.
Proof.
  destruct a as [now event|pick resp|timeline|sched| |]; simpl; try done;
    intros _.
  - unfold ReportEvent, TryGo.
    by destruct (enabled r), (shuttingDown r) eqn:?, (has_slot (reports r)).
  - apply finish_flag.
  - pose proof (Close_flag sched r) as H.
    by destruct (Close sched r) as [[res r'] effs].
  - unfold Go. by destruct (has_slot (reports r)).
Qed.

Lemma run_flag (acts : list action) :
  forall r, Forall (fun a => is_shutdown a = false) acts ->
            shuttingDown (fst (run acts r)) = shuttingDown r.
Proof.
  induction acts as [|a rest IH]; intros r Hacts; [done|].
  apply Forall_cons in Hacts as [Ha Hrest]. simpl.
  pose proof (step_flag a r Ha) as H1.
  destruct (step a r) as [r1 e1]; simpl in *.
  specialize (IH r1 Hrest). destruct (run rest r1) as [r2 e2]; simpl in *.
  congruence.
Qed.

(** What [Close] and [Shutdown] leave and send when they return. *)
Lemma shutdown_paths_drain (r r' : Reporter) (sched : list completion)
  (timeline : list tick) (res : option error) (effs : list effect) :
  Close sched r = (Returns res, r', effs) \/
  Shutdown timeline r = (Returns res, r', effs) ->
  running (reports r') = [] /\ ctxDone (reports r') = true /\
  requests effs ≡ₚ pending (authToken r) (running (reports r)).
Proof.
  intros [H|H].
  - pose proof (conserves_Close sched r) as Hc. rewrite H in Hc.
    apply Close_leaves in H as (Hrun & Hctx & _). simpl in Hc.
    unfold conserves in Hc. rewrite Hrun in Hc. simpl in Hc.
    by rewrite app_nil_r in Hc.
  - unfold Shutdown in H.
    pose proof (conserves_Shutdown_select timeline (store_shuttingDown r)) as Hc.
    rewrite H in Hc. apply Shutdown_select_leaves in H as (Hrun & Hctx).
    unfold conserves in Hc. simpl in Hc. rewrite Hrun in Hc. simpl in Hc.
    by rewrite app_nil_r in Hc.
Qed.

(** ** X1 to X3: GenerateID *)

(** X1: [GenerateID n] returns exactly when [n] is not negative and the
    reader delivers the first [n] draws; a negative [n] panics in the
    allocation and a failed draw panics with the reader's error, the index
    into the alphabet never being out of range. *)
Theorem X1_GenerateID_returns_iff (rd : Reader) (n : Z) :
  (n < 0 -> GenerateID rd n = Panic "makeslice: len out of range") /\
  (0 <= n -> (exists i, (i < Z.to_nat n)%nat /\ rd i = None) ->
   GenerateID rd n = Panic "crypto/rand: read failed") /\
  ((exists s, GenerateID rd n = Ok s) <->
   0 <= n /\ forall i, (i < Z.to_nat n)%nat -> is_Some (rd i)).
Proof.
  assert (forall s, GenerateID rd n = Ok s ->
            0 <= n /\ forall i, (i < Z.to_nat n)%nat -> is_Some (rd i)) as Hok.
  { intros s Hs. split; [by apply GenerateID_sound in Hs as [? _]|].
    intros i Hi. destruct (GenerateID_Ok_draws rd n s Hs i Hi) as (v & -> & _).
    eauto. }
  split; [|split].
  - intros Hn. unfold GenerateID. by apply Z.ltb_lt in Hn as ->.
  - intros Hn (i & Hi & Hnone).
    destruct (GenerateID rd n) as [s|m] eqn:Hrun.
    + destruct (Hok s eq_refl) as [_ Hall]. destruct (Hall i Hi) as [v Hv].
      congruence.
    + unfold GenerateID in Hrun.
      destruct (n <? 0) eqn:Hlt; [apply Z.ltb_lt in Hlt; lia|].
      destruct (GenerateID_loop _ _ _ _) as [id|m'] eqn:Hloop; [discriminate|].
      apply GenerateID_loop_Panic in Hloop as [-> _]. congruence.
  - split; [intros [s Hs]; by eapply Hok|].
    intros [Hn Hall]. by apply GenerateID_total.
Qed.

Lemma X1_GenerateID_returns_iff_witness :
  GenerateID (fun i => if (i <? 2)%nat then Some 7 else None) 3
  = Panic "crypto/rand: read failed" /\
  GenerateID Sample.reader (-1) = Panic "makeslice: len out of range".
Proof.
  split.
  - apply (proj1 (proj2 (X1_GenerateID_returns_iff _ 3))); [lia|].
    exists 2%nat. split; [vm_compute; lia|reflexivity].
  - apply (proj1 (X1_GenerateID_returns_iff Sample.reader (-1))). lia.
Defined.

(** X2: the character at each position of the id is the letter of the
    alphabet selected by the draw of that position, reduced modulo 62. *)
Theorem X2_GenerateID_letter_per_draw (rd : Reader) (n : Z) (s : string)
  (i : nat) :
  GenerateID rd n = Ok s -> (i < Z.to_nat n)%nat ->
  exists v, rd i = Some v /\
            String.get i s = String.get (Z.to_nat (v mod 62)) letters.
Proof. intros Hs Hi. by eapply GenerateID_Ok_draws. Qed.

Lemma X2_GenerateID_letter_per_draw_witness :
  exists v, Sample.reader 4%nat = Some v /\
            String.get 4%nat "dkryFMT07elszGNU" =
            String.get (Z.to_nat (v mod 62)) letters.
Proof.
  apply (X2_GenerateID_letter_per_draw Sample.reader 16 "dkryFMT07elszGNU"
           4%nat);
    [vm_compute; reflexivity|vm_compute; lia].
Defined.

(** X3: every string over the alphabet is an id that [GenerateID] returns
    for some reader: the draws that are the positions of its characters. *)
Theorem X3_GenerateID_reaches_every_id (s : string) :
  Forall in_letters (list_ascii_of_string s) ->
  GenerateID (reader_for s) (Z.of_nat (String.length s)) = Ok s.
Proof.
  intros Hs.
  assert (forall i, (i < String.length s)%nat -> is_Some (reader_for s i))
    as Hrd.
  { intros i Hi. unfold reader_for.
    destruct (string_get_lt s i Hi) as [c ->]. eauto. }
  destruct (GenerateID_total (reader_for s) (Z.of_nat (String.length s)))
    as [s' Hs']; [lia|by rewrite Nat2Z.id|].
  rewrite Hs'. f_equal. apply String.get_correct. intros i.
  pose proof (GenerateID_sound _ _ _ Hs') as (_ & Hlen & _).
  rewrite Nat2Z.id in Hlen.
  destruct (decide (i < String.length s)%nat) as [Hi|Hi].
  - destruct (GenerateID_Ok_draws _ _ _ Hs' i) as (v & Hv & ->);
      [by rewrite Nat2Z.id|].
    unfold reader_for in Hv.
    destruct (String.get i s) as [c|] eqn:Hc; [|discriminate].
    destruct (index_of_get letters c) as [Hget Hlt];
      [by eapply (Forall_in_get in_letters)|].
    rewrite letters_length in Hlt.
    remember (index_of c (list_ascii_of_string letters)) as k eqn:Hk.
    assert (v = Z.of_nat k) as -> by congruence.
    rewrite Z.mod_small, Nat2Z.id by lia. done.
  - rewrite !string_get_ge by lia. done.
Qed.

Lemma X3_GenerateID_reaches_every_id_witness :
  GenerateID (reader_for "Zz09") 4 = Ok "Zz09"%string.
Proof.
  apply (X3_GenerateID_reaches_every_id "Zz09").
  simpl. repeat (apply Forall_cons_2; [apply letters_alnum; reflexivity|]).
  apply Forall_nil_2.
Defined.

(** ** X4: construction *)

(** X4: [NewReporter] returns exactly when a client is supplied or the
    embedded roots parse, and the reader delivers 16 draws; without a client
    and with unparsable roots it panics on the roots. A supplied client is
    used as it is; otherwise the client has a 5-second timeout and trusts
    the embedded roots only. The reporter starts with an empty group of
    limit 16, not shutting down. *)
Theorem X4_NewReporter_outcome (h : Host) (parentDone : bool)
  (conf : Configuration) :
  ((exists r, snd (NewReporter h parentDone conf) = Ok r) <->
   (HTTPClient conf <> None \/ rootsPEM_parsed h <> None) /\
   forall i, (i < 16)%nat -> is_Some (rand_Reader h i)) /\
  (HTTPClient conf = None -> rootsPEM_parsed h = None ->
   snd (NewReporter h parentDone conf) = Panic "failed to parse roots.pem") /\
  (forall r, snd (NewReporter h parentDone conf) = Ok r ->
     baseURL (client r) = BaseURL conf /\
     match HTTPClient conf with
     | Some c => httpClient (client r) = c
     | None => exists roots, rootsPEM_parsed h = Some roots /\
                             httpClient (client r) =
                             {| Timeout := 5; RootCAs := Some roots |}
     end /\
     authToken r = AuthToken conf /\ tags r = conf_Tags conf /\
     shuttingDown r = false /\
     reports r = {| limit := Some 16%nat; running := []; err := None;
                    ctxDone := parentDone |}).
Proof.
  split; [|split].
  - split.
    + intros [r Hr].
      pose proof (NewReporter_client _ _ _ _ Hr) as [_ Hc].
      apply NewReporter_Ok in Hr as (Hid & _). split.
      * destruct (HTTPClient conf); [by left|].
        destruct Hc as (roots & -> & _). by right.
      * intros i Hi.
        destruct (GenerateID_Ok_draws _ _ _ Hid i) as (v & -> & _); eauto.
    + intros [Hc Hrd].
      destruct (GenerateID_total (rand_Reader h) 16) as [sid Hsid];
        [lia|done|].
      by eapply NewReporter_from_parts.
  - apply NewReporter_Panic_roots.
  - intros r Hr. pose proof (NewReporter_client _ _ _ _ Hr) as [Hb Hc].
    apply NewReporter_Ok in Hr as (_ & ? & ? & _ & ? & ?). done.
Qed.

Lemma X4_NewReporter_outcome_witness :
  let h := {| os_Getenv := fun _ => ""%string; rootsPEM_parsed := None;
              rand_Reader := Sample.reader |} in
  let c := {| Timeout := 60; RootCAs := None |} in
  let conf := {| BaseURL := "http://localhost"; AuthToken := "";
                 conf_Tags := []; HTTPClient := Some c |} in
  (exists r, snd (NewReporter h false conf) = Ok r) /\
  snd (NewReporter h false Sample.conf) = Panic "failed to parse roots.pem".
Proof.
  intros h c conf. split.
  - apply (proj1 (X4_NewReporter_outcome h false conf)). split.
    + left. discriminate.
    + intros i _. simpl. unfold Sample.reader. eauto.
  - by apply (proj1 (proj2 (X4_NewReporter_outcome h false Sample.conf))).
Defined.

(** ** X5 to X10: the group along runs *)

(** X5: whatever is done with a constructed reporter, no more than 16 tasks
    are ever in flight. *)
Theorem X5_in_flight_within_ceiling (h : Host) (parentDone : bool)
  (conf : Configuration) (r0 : Reporter) (acts : list action) :
  snd (NewReporter h parentDone conf) = Ok r0 ->
  (length (running (reports (fst (run acts r0))))
   <= Z.to_nat maxConcurrentReports)%nat.
Proof.
  intros Hnew.
  assert (reachable (fst (run acts r0))) as [_ Hlim Hw _ _]%reachable_sound
    by (by exists h, parentDone, conf, r0, acts).
  unfold within_limit in Hw. by rewrite Hlim in Hw.
Qed.

Lemma X5_in_flight_within_ceiling_witness :
  (length (running (reports (fst (run (Sample.sixteen ++ Sample.sixteen)
                                      Sample.active)))) <= 16)%nat.
Proof.
  apply (X5_in_flight_within_ceiling Sample.host false Sample.conf).
  vm_compute; reflexivity.
Defined.

(** X6: along any run, the requests sent together with those of the report
    tasks still running are, up to order, those of the tasks that were
    running at the start together with those of the events accepted since:
    an accepted event is sent once its task ends, and only once, and nothing
    else is sent. *)
Theorem X6_accepted_reports_sent_once (r : Reporter) (acts : list action) :
  requests (snd (run acts r)) ++
  pending (authToken r) (running (reports (fst (run acts r))))
  ≡ₚ pending (authToken r) (running (reports r)) ++ accepted acts r.
Proof. apply run_conserves. Qed.



(** X8: a reporter constructed with the opt-out variable set never sends a
    request and never has a report task in its group, whatever is done with
    it. *)
Theorem X8_opted_out_sends_nothing (h : Host) (parentDone : bool)
  (conf : Configuration) (r0 : Reporter) (acts : list action) :
  os_Getenv h telemetryOptOutEnvVar <> ""%string ->
  snd (NewReporter h parentDone conf) = Ok r0 ->
  requests (snd (run acts r0)) = [] /\
  pending (authToken r0) (running (reports (fst (run acts r0)))) = [].
Proof.
  intros Hv%String.eqb_neq Hnew.
  apply NewReporter_Ok in Hnew as (_ & _ & _ & Hen & _ & Hg).
  rewrite Hv in Hen.
  pose proof (run_conserves acts r0) as H.
  rewrite Hg, (accepted_disabled acts r0 Hen) in H. simpl in H.
  apply Permutation_nil_r in H. by apply app_eq_nil in H.
Qed.

Lemma X8_opted_out_sends_nothing_witness :
  requests (snd (run (Sample.sixteen ++ [TaskEnds 0 None; CallClose []])
                     Sample.disabled)) = [].
Proof.
  apply (X8_opted_out_sends_nothing Sample.host_optout false Sample.conf);
    [discriminate|vm_compute; reflexivity].
Defined.

(** X9: when [Close] returns, the group holds an error, the cancellation
    sentinel if it held none before, so the shared context is cancelled; the
    shutting-down flag is as it was; and a reporter in use then has a free
    slot again, so that an enabled reporter on which only [Close] was
    called still accepts events. *)
Theorem X9_Close_cancels_but_keeps_accepting (r r' : Reporter)
  (sched : list completion) (res : option error) (effs : list effect) :
  Close sched r = (Returns res, r', effs) ->
  ctxDone (reports r') = true /\
  err (reports r') <> None /\
  (err (reports r) = None -> err (reports r') = Some context_Canceled) /\
  shuttingDown r' = shuttingDown r /\
  (reachable r -> accepts r' = enabled r && negb (shuttingDown r)).
Proof.
  intros H.
  pose proof (Close_flag sched r) as Hflag.
  pose proof (evolves_Close sched r) as Hev.
  rewrite H in Hflag, Hev. simpl in *.
  apply Close_leaves in H as (Hrun & Hctx & Herr).
  split; [done|]. split; [done|]. split; [|split; [done|]].
  - intros Hnone.
    destruct (ev_benign _ _ Hev) as [?|?]; [by left|done..].
  - intros [_ Hlim _ _ _]%reachable_sound.
    destruct (ev_config _ _ Hev) as (_ & _ & _ & _ & Hen).
    unfold accepts, has_slot.
    rewrite Hen, Hflag, (ev_limit _ _ Hev), Hlim, Hrun. simpl.
    by rewrite andb_true_r.
Qed.

Lemma X9_Close_cancels_but_keeps_accepting_witness :
  let out := Close [(0%nat, None)] Sample.active in
  err (reports (snd (fst out))) = Some context_Canceled /\
  accepts (snd (fst out)) = true.
Proof.
  intros out.
  assert (out = (Returns None, snd (fst out), snd out)) as H
    by (vm_compute; reflexivity).
  destruct (X9_Close_cancels_but_keeps_accepting Sample.active (snd (fst out))
              _ None (snd out) H) as (_ & _ & Herr & _ & Hacc).
  split; [by apply Herr|]. by rewrite (Hacc sample_active_reachable).
Defined.

(** X10: only [Shutdown] writes the shutting-down flag: a run without a
    [Shutdown], whatever else it holds, leaves the flag as it was. *)
Theorem X10_only_Shutdown_sets_flag (r : Reporter) (acts : list action) :
  Forall (fun a => is_shutdown a = false) acts ->
  shuttingDown (fst (run acts r)) = shuttingDown r.
Proof. apply run_flag. Qed.

Lemma X10_only_Shutdown_sets_flag_witness :
  shuttingDown (fst (run [CallReportEvent Sample.now Sample.blank;
                          CallClose [(0%nat, None); (0%nat, None)];
                          CloseSpawns; TaskEnds 0 None] Sample.active))
  = false.
Proof.
  apply (X10_only_Shutdown_sets_flag Sample.active).
  repeat constructor.
Defined.

(** ** X11 to X15: events and effects *)

(** X11: an event reported a second time through the same enabled reporter,
    however the reporter was used in between, keeps the session id of the
    first time, gets the timestamp of the second call, and carries the
    reporter's tags twice. *)
Theorem X11_reporting_event_twice (r : Reporter) (acts : list action)
  (now1 now2 : Timestamp) (event : TelemetryEvent) :
  enabled r = true ->
  let first := ReportEvent now1 event r in
  let event1 := snd (fst first) in
  let r' := fst (run acts (fst (fst first))) in
  let event2 := snd (fst (ReportEvent now2 event1 r')) in
  SessionId event2 = SessionId event1 /\
  Timestamp_ event2 = Some now2 /\
  Tags event2 = Tags event ++ tags r ++ tags r.
Proof.
  intros Hen first event1 r' event2.
  assert (same_config r r') as Hcfg.
  { apply ev_config. eapply evolves_trans; [apply evolves_ReportEvent|].
    apply evolves_run. }
  assert (event1 = stamp r now1 event) as H1 by by apply ReportEvent_event.
  assert (event2 = stamp r now2 event1) as H2.
  { unfold event2. rewrite ReportEvent_event.
    - by apply stamp_config.
    - destruct Hcfg as (_ & _ & _ & _ & ->). done. }
  rewrite H2, H1. simpl. repeat split.
  - destruct (String.eqb (SessionId event) "") eqn:Heq; simpl.
    + by destruct (String.eqb (sessionID r) "").
    + by rewrite Heq.
  - by rewrite (assoc_L (++)).
Qed.

Lemma X11_reporting_event_twice_witness :
  let first := ReportEvent Sample.now Sample.blank Sample.active in
  let event1 := snd (fst first) in
  let r' := fst (run [TaskEnds 0 None] (fst (fst first))) in
  Tags (snd (fst (ReportEvent Sample.now event1 r')))
  = Tags Sample.blank ++ tags Sample.active ++ tags Sample.active.
Proof.
  exact (proj2 (proj2 (X11_reporting_event_twice Sample.active
           [TaskEnds 0 None] Sample.now Sample.now Sample.blank eq_refl))).
Defined.


(** X13: after construction a reporter never reads the environment and
    never logs at info level, and every send it makes is under the
    30-second deadline. *)
Theorem X13_effects_after_construction (r : Reporter) (acts : list action) :
  Forall late_effect (snd (run acts r)).
Proof. apply late_run. Qed.

(** X14: on a freshly constructed reporter that is not opted out, reporting
    one event emits nothing; a following [Shutdown] during which at least
    two tasks may end returns nil, having sent exactly the request of the
    stamped event; and a [Close] after that, given one task end, returns nil
    and sends nothing. *)
Theorem X14_report_shutdown_close (h : Host) (parentDone : bool)
  (conf : Configuration) (r0 : Reporter) (now : Timestamp)
  (event : TelemetryEvent) (timeline : list tick) (sched : list completion) :
  snd (NewReporter h parentDone conf) = Ok r0 ->
  os_Getenv h telemetryOptOutEnvVar = ""%string ->
  (1 < length (completions timeline))%nat ->
  sched <> [] ->
  let reported := ReportEvent now event r0 in
  let shut := Shutdown timeline (fst (fst reported)) in
  let closed := Close sched (snd (fst shut)) in
  snd reported = [] /\
  fst (fst shut) = Returns None /\
  requests (snd shut) = [build_request (AuthToken conf) (stamp r0 now event)] /\
  fst (fst closed) = Returns None /\
  requests (snd closed) = [].
Proof.
  intros Hnew Henv Htl Hsched.
  apply NewReporter_Ok in Hnew as (_ & Htok & _ & Hen & Hsd & Hg).
  rewrite Henv in Hen. simpl in Hen.
  assert (ReportEvent now event r0 =
          (with_reports (spawn (ReportTask (stamp r0 now event)) (reports r0)) r0,
           stamp r0 now event, [])) as ->.
  { unfold ReportEvent, TryGo, has_slot. by rewrite Hen, Hsd, Hg. }
  cbn zeta. simpl fst. simpl snd.
  set (r1 := with_reports _ r0).
  assert (err (reports r1) = None) as Herr1 by (simpl; by rewrite Hg).
  assert (pending (authToken r1) (running (reports r1)) =
          [build_request (AuthToken conf) (stamp r0 now event)]) as Hpend.
  { simpl. by rewrite Hg, Htok. }
  (* Shutdown *)
  destruct (Shutdown_select_total timeline 16 ltac:(lia) (store_shuttingDown r1))
    as (res & r2 & e2 & Hshut).
  { simpl. by rewrite Hg. }
  { simpl. rewrite Hg. simpl. lia. }
  assert (Shutdown timeline r1 = (Returns res, r2, e2)) as Hshut' by exact Hshut.
  rewrite Hshut'. simpl fst. simpl snd.
  pose proof (shutdown_paths_result r1 [] timeline res) as Hres.
  rewrite Hshut', Herr1 in Hres. specialize (Hres (or_intror eq_refl)).
  subst res.
  pose proof (evolves_Shutdown timeline r1) as Hev. rewrite Hshut' in Hev.
  simpl in Hev.
  destruct (shutdown_paths_drain r1 r2 [] timeline None e2 (or_intror Hshut'))
    as (Hrun2 & _ & Hperm).
  rewrite Hpend in Hperm. apply Permutation_singleton_r in Hperm.
  (* Close *)
  destruct (Close_total sched r2 16) as (res3 & r3 & e3 & Hclose).
  { rewrite (ev_limit _ _ Hev). simpl. by rewrite Hg. }
  { lia. }
  { rewrite Hrun2. destruct sched; simpl; [done|lia]. }
  rewrite Hclose. simpl.
  pose proof (shutdown_paths_result r2 sched [] res3) as Hres3.
  rewrite Hclose in Hres3. specialize (Hres3 (or_introl eq_refl)).
  assert (res3 = None) as ->.
  { destruct (ev_benign _ _ Hev) as [Hb|Hb]; [by left|..];
      by rewrite Hb in Hres3. }
  pose proof (conserves_Close sched r2) as Hc. rewrite Hclose in Hc.
  unfold conserves in Hc. simpl in Hc. rewrite Hrun2 in Hc. simpl in Hc.
  apply Permutation_nil_r, app_eq_nil in Hc as [Hreq _].
  done.
Qed.

Lemma X14_report_shutdown_close_witness :
  let reported := ReportEvent Sample.now Sample.blank Sample.active in
  let shut := Shutdown [Deadline; Completes 0 None; Completes 0 None]
                (fst (fst reported)) in
  let closed := Close [(0%nat, None)] (snd (fst shut)) in
  snd reported = [] /\
  fst (fst shut) = Returns None /\
  requests (snd shut) =
    [build_request (AuthToken Sample.conf)
       (stamp Sample.active Sample.now Sample.blank)] /\
  fst (fst closed) = Returns None /\
  requests (snd closed) = [].
Proof.
  apply (X14_report_shutdown_close Sample.host false Sample.conf Sample.active
           Sample.now Sample.blank
           [Deadline; Completes 0 None; Completes 0 None] [(0%nat, None)]);
    [vm_compute; reflexivity|reflexivity|simpl; lia|discriminate].
Defined.

(** X15: no call of a method and no end of a task changes the client, the
    auth token, the session id, the configured tags or the enabled flag of a
    reporter. *)
Theorem X15_configuration_is_immutable (r : Reporter) (acts : list action) :
  let r' := fst (run acts r) in
  client r' = client r /\ authToken r' = authToken r /\
  sessionID r' = sessionID r /\ tags r' = tags r /\ enabled r' = enabled r.
Proof. exact (ev_config _ _ (evolves_run acts r)). Qed.

(** ** X16 and X17: the synchronous reporter *)

(** X16: the enabled synchronous reporter leaves the tags of an event that
    has a [web] tag as they are and appends [backend] to the tags of any
    other event, so that the event sent has one of the two; it sends exactly
    one request, that of the event as stamped, and without a deadline. *)
Theorem X16_legacy_backend_tag (lr : Legacy.Reporter) (now : Timestamp)
  (resp : option error) (event : TelemetryEvent) :
  Legacy.enabled lr = true ->
  let out := Legacy.ReportEvent now resp event lr in
  (In "web"%string (Tags event) -> Tags (fst out) = Tags event) /\
  (~ In "web"%string (Tags event) ->
   Tags (fst out) = Tags event ++ ["backend"%string]) /\
  (In "web"%string (Tags (fst out)) \/ In "backend"%string (Tags (fst out))) /\
  exists rest,
    snd out = Report None (build_request (Legacy.authToken lr) (fst out)) :: rest
    /\ requests rest = [].
Proof.
  intros Hen out. unfold out, Legacy.ReportEvent. rewrite Hen. simpl.
  destruct (Legacy.has_web_tag (Tags event)) eqn:Hweb; simpl.
  - apply has_web_tag_In in Hweb.
    split; [done|]. split; [done|]. split; [by left|].
    destruct resp; eauto.
  - assert (~ In "web"%string (Tags event)) as Hno.
    { intros H%has_web_tag_In. congruence. }
    split; [done|]. split; [done|]. split; [|destruct resp; eauto].
    right. apply in_or_app. right. by left.
Qed.

Lemma X16_legacy_backend_tag_witness :
  Tags (fst (Legacy.ReportEvent Sample.now None Sample.with_session
               Sample.legacy)) = ["backend"%string] /\
  Tags (fst (Legacy.ReportEvent Sample.now None Sample.blank Sample.legacy))
  = ["web"%string].
Proof.
  split.
  - apply (proj1 (proj2 (X16_legacy_backend_tag Sample.legacy Sample.now None
                           Sample.with_session eq_refl))).
    intros [].
  - apply (proj1 (X16_legacy_backend_tag Sample.legacy Sample.now None
                    Sample.blank eq_refl)).
    by left.
Defined.

(** X17: an event without a [web] tag that is reported twice through the
    enabled synchronous reporter carries [backend] twice. *)
Theorem X17_legacy_reporting_twice (lr : Legacy.Reporter)
  (now1 now2 : Timestamp) (resp1 resp2 : option error)
  (event : TelemetryEvent) :
  Legacy.enabled lr = true -> ~ In "web"%string (Tags event) ->
  let event1 := fst (Legacy.ReportEvent now1 resp1 event lr) in
  let event2 := fst (Legacy.ReportEvent now2 resp2 event1 lr) in
  Tags event2 = Tags event ++ ["backend"%string; "backend"%string] /\
  SessionId event2 = SessionId event1.
Proof.
  intros Hen Hno event1 event2.
  assert (Legacy.has_web_tag (Tags event) = false) as Hweb.
  { destruct (Legacy.has_web_tag (Tags event)) eqn:H; [|done].
    by apply has_web_tag_In in H. }
  unfold event2, event1, Legacy.ReportEvent. rewrite Hen. simpl.
  rewrite Hweb. simpl. rewrite has_web_tag_backend, Hweb. simpl.
  split; [by rewrite <- (assoc_L (++))|].
  destruct (String.eqb (SessionId event) "") eqn:Heq; simpl.
  - by destruct (String.eqb (Legacy.sessionID lr) "").
  - by rewrite Heq.
Qed.

Lemma X17_legacy_reporting_twice_witness :
  let event1 := fst (Legacy.ReportEvent Sample.now None Sample.with_session
                       Sample.legacy) in
  let event2 := fst (Legacy.ReportEvent Sample.now None event1 Sample.legacy) in
  Tags event2 = Tags Sample.with_session
                ++ ["backend"%string; "backend"%string] /\
  SessionId event2 = SessionId event1.
Proof.
  apply (X17_legacy_reporting_twice Sample.legacy Sample.now Sample.now None
           None Sample.with_session eq_refl).
  intros [].
Defined.
